(** * Blog platform: slug generation, post queries, post store and client proxy

  A shallow embedding of [server.js] (the Express handlers over the
  MongoDB collections) and of [src/lib/api.ts] (the browser-side
  [BlogAPI] with its fixture fallback), and the properties of the
  specification checked against them.

  Conventions.
  - A JavaScript string is the Rocq [string] of its bytes.  The embedding
    is exact on ASCII text.  Outside ASCII no byte is a letter, a digit or
    whitespace for the model, whereas JavaScript lowercases accented
    capitals and counts U+00A0 and a few other characters as whitespace.
  - A [Date] is its time value in milliseconds, a [Z]; [new Date()] reads
    a clock that the caller passes in.
  - Page numbers and page sizes are integers ([Z]), which JavaScript
    numbers hold exactly below 2^53; a quotient of two numbers is a
    [JSNum], which adds the two infinities and NaN. *)

From Stdlib Require Import ZArith List String Ascii Bool Lia Sorted Arith.
From Stdlib Require Import Permutation.
From Stdlib Require DecimalString DecimalZ DecimalPos.
From Stdlib Require OrdersEx.
Import ListNotations.

Local Open Scope string_scope.
Local Open Scope bool_scope.

(* ===================================================================== *)
(** ** JavaScript strings *)
(* ===================================================================== *)

Module JSString.

Definition code (c : ascii) : nat := nat_of_ascii c.

Definition between (lo hi : nat) (c : ascii) : bool :=
  (lo <=? code c)%nat && (code c <=? hi)%nat.

Definition isUpper : ascii -> bool := between 65 90.
Definition isLower : ascii -> bool := between 97 122.
Definition isDigit : ascii -> bool := between 48 57.
Definition isHyphen (c : ascii) : bool := Ascii.eqb c "-".

(** [\s] of a regular expression, and the characters [trim] removes:
    TAB, LF, VT, FF, CR and the space. *)
Definition isSpace (c : ascii) : bool :=
  between 9 13 c || Ascii.eqb c " ".

Definition toLowerChar (c : ascii) : ascii :=
  if isUpper c then ascii_of_nat (code c + 32) else c.

Fixpoint map (f : ascii -> ascii) (s : string) : string :=
  match s with
  | EmptyString => EmptyString
  | String c s' => String (f c) (map f s')
  end.

Fixpoint filter (p : ascii -> bool) (s : string) : string :=
  match s with
  | EmptyString => EmptyString
  | String c s' => if p c then String c (filter p s') else filter p s'
  end.

Fixpoint all (p : ascii -> bool) (s : string) : bool :=
  match s with
  | EmptyString => true
  | String c s' => p c && all p s'
  end.

(** [s.toLowerCase()] *)
Definition toLowerCase (s : string) : string := map toLowerChar s.

(** [s.replace(/[p]+/g, '-')]: every maximal run of characters in the
    class [p] becomes one hyphen.  [inRun] tells that the character just
    before belongs to a run whose hyphen was already written. *)
Fixpoint replaceRunsFrom (p : ascii -> bool) (inRun : bool) (s : string)
  : string :=
  match s with
  | EmptyString => EmptyString
  | String c s' =>
      if p c
      then if inRun
           then replaceRunsFrom p true s'
           else String "-" (replaceRunsFrom p true s')
      else String c (replaceRunsFrom p false s')
  end.

Definition replaceRuns (p : ascii -> bool) (s : string) : string :=
  replaceRunsFrom p false s.

Fixpoint trimStartBy (p : ascii -> bool) (s : string) : string :=
  match s with
  | EmptyString => EmptyString
  | String c s' => if p c then trimStartBy p s' else s
  end.

Fixpoint trimEndBy (p : ascii -> bool) (s : string) : string :=
  match s with
  | EmptyString => EmptyString
  | String c s' =>
      match trimEndBy p s' with
      | EmptyString => if p c then EmptyString else String c EmptyString
      | t => String c t
      end
  end.

(** [s.trim()] removes the whitespace at both ends. *)
Definition trim (s : string) : string :=
  trimEndBy isSpace (trimStartBy isSpace s).

(** [s.includes(t)] *)
Fixpoint includes (s t : string) : bool :=
  prefix t s ||
  match s with
  | EmptyString => false
  | String _ s' => includes s' t
  end.

(** [if (s)] on a string: the empty string is falsy. *)
Definition truthy (s : string) : bool :=
  match s with EmptyString => false | _ => true end.

Definition first (s : string) : option ascii :=
  match s with EmptyString => None | String c _ => Some c end.

Fixpoint last (s : string) : option ascii :=
  match s with
  | EmptyString => None
  | String c EmptyString => Some c
  | String _ s' => last s'
  end.

End JSString.

(* ===================================================================== *)
(** ** The slug generator ([server.js] 73-80, [api.ts] 159-166) *)
(* ===================================================================== *)

Module Slug.
Import JSString.

(** The class [[a-z0-9\s-]]; [replace(/[^a-z0-9\s-]/g, '')] keeps exactly
    its members. *)
Definition slugChar (c : ascii) : bool :=
  isLower c || isDigit c || isSpace c || isHyphen c.

Definition generateSlug (title : string) : string :=
  trim
    (replaceRuns isHyphen
       (replaceRuns isSpace
          (filter slugChar
             (toLowerCase title)))).

(** The algorithm in the words of the specification, whose last step
    trims hyphens as well as whitespace. *)
Definition isSpaceOrHyphen (c : ascii) : bool := isSpace c || isHyphen c.

Definition specSlug (title : string) : string :=
  trimEndBy isSpaceOrHyphen
    (trimStartBy isSpaceOrHyphen
       (replaceRuns isHyphen
          (replaceRuns isSpace
             (filter slugChar
                (toLowerCase title))))).

(** What is left of the class once whitespace is gone: [[a-z0-9-]]. *)
Definition cleanChar (c : ascii) : bool :=
  isLower c || isDigit c || isHyphen c.

End Slug.


(* ===================================================================== *)
(** ** JavaScript numbers, arrays and exceptions *)
(* ===================================================================== *)

Module JS.

(** The value of [a / b] or of [Math.ceil(a / b)] for integers [a], [b]:
    an integer, an infinity or NaN.  [Fin 0] stands for both zeros. *)
Inductive JSNum : Type :=
| Fin (z : Z)
| PosInf
| NegInf
| NaN.

(** [Math.ceil(a / b)].  [Z.div] rounds down for either sign of [b], so
    the quotient rounded up is [- (- a / b)]. *)
Definition ceilDiv (a b : Z) : JSNum :=
  if (b =? 0)%Z
  then if (a =? 0)%Z then NaN
       else if (0 <? a)%Z then PosInf else NegInf
  else Fin (- ((- a) / b))%Z.

(** [arr.slice(start, end)]: a negative bound counts from the end of the
    array, and both are clamped to the array. *)
Definition relativeIndex (len i : Z) : Z :=
  if (i <? 0)%Z then Z.max (len + i) 0 else Z.min i len.

Definition slice {A : Type} (l : list A) (start stop : Z) : list A :=
  let len := Z.of_nat (List.length l) in
  let k := relativeIndex len start in
  let final := relativeIndex len stop in
  firstn (Z.to_nat (final - k)) (skipn (Z.to_nat k) l).

Inductive JSError : Type :=
| TypeError (message : string)
| Error (message : string).

(** A call either returns or throws. *)
Inductive Result (A : Type) : Type :=
| Ok (a : A)
| Throw (e : JSError).

Arguments Ok {A} a.
Arguments Throw {A} e.

Definition bind {A B : Type} (r : Result A) (k : A -> Result B) : Result B :=
  match r with
  | Ok a => k a
  | Throw e => Throw e
  end.

Definition default {A : Type} (d : A) (o : option A) : A :=
  match o with Some a => a | None => d end.

End JS.

Notation "'let*' x ':=' r 'in' k" := (JS.bind r (fun x => k))
(at level 10, x name, r at level 100, k at level 200).

(* ===================================================================== *)
(** ** The client-side proxy ([src/lib/api.ts]) *)
(* ===================================================================== *)

Module BlogAPI.
Import JSString JS.

(** [interface BlogPost]; a field marked [?] is absent when [None]. *)
Record BlogPost : Type := {
  id : string;
  title : string;
  slug : string;
  content : string;
  excerpt : option string;
  featured_image : option string;
  tags : option (list string);
  published : option bool;
  published_at : option Z;
  created_at : option Z;
  updated_at : option Z
}.

Record BlogPostsResponse : Type := {
  posts : list BlogPost;
  total : Z;
  page : Z;
  pageSize : Z;
  totalPages : JSNum
}.

Record BlogPostQuery : Type := {
  q_page : option Z;
  q_pageSize : option Z;
  q_search : option string;
  q_tags : option (list string)
}.

(** The object [{}]. *)
Definition emptyQuery : BlogPostQuery :=
  {| q_page := None; q_pageSize := None; q_search := None; q_tags := None |}.

(** [new Date('2024-01-DD')]: midnight UTC of that day, in milliseconds. *)
Definition january2024 (day : Z) : Z := (1704067200000 + (day - 1) * 86400000)%Z.

Definition content1 : string :=
"# Welcome to Modern Web Development

Web development has evolved tremendously over the past few years. In this comprehensive guide, we'll explore the latest trends, tools, and best practices that every developer should know.

## The Current Landscape

The web development ecosystem is more vibrant than ever. With frameworks like React, Vue, and Angular leading the frontend space, and Node.js, Python, and Go powering backends, developers have unprecedented choice and flexibility.

### Key Technologies to Master

- **Frontend Frameworks**: React, Vue.js, Angular
- **Backend Technologies**: Node.js, Python, Go, Rust
- **Databases**: MongoDB, PostgreSQL, Redis
- **Cloud Platforms**: AWS, Google Cloud, Azure

## Best Practices

1. **Performance First**: Always optimize for speed and user experience
2. **Mobile Responsive**: Design for mobile-first approach
3. **Accessibility**: Ensure your applications are accessible to all users
4. **Security**: Implement proper authentication and data protection

The future of web development is bright, and there's never been a better time to start your journey!".

Definition content2 : string :=
"# Mastering Database Design

Database design is both an art and a science. A well-designed database can make the difference between a fast, scalable application and one that struggles under load.

## Fundamental Principles

### 1. Normalization
Normalization helps eliminate data redundancy and ensures data integrity. Understanding the different normal forms is crucial for any database designer.

### 2. Indexing Strategy
Proper indexing can dramatically improve query performance. However, over-indexing can slow down write operations.

### 3. Relationships
Understanding how to model relationships between entities is fundamental to good database design.

## MongoDB vs SQL Databases

### MongoDB Advantages:
- Flexible schema design
- Horizontal scaling capabilities
- JSON-like document storage
- Great for rapid prototyping

### SQL Database Advantages:
- ACID compliance
- Mature ecosystem
- Complex query capabilities
- Strong consistency guarantees

## Performance Optimization Tips

1. **Query Optimization**: Write efficient queries and use explain plans
2. **Connection Pooling**: Manage database connections effectively
3. **Caching**: Implement appropriate caching strategies
4. **Monitoring**: Keep track of database performance metrics

Remember, the best database design is one that serves your application's specific needs while maintaining performance and scalability.".

Definition content3 : string :=
"# Creating Beautiful, Responsive UIs

User interface design has become increasingly important as users expect seamless experiences across all devices. Let's explore how to build interfaces that work everywhere.

## Mobile-First Approach

Starting with mobile design constraints forces you to prioritize content and functionality. This approach typically results in cleaner, more focused designs.

### Key Principles:
- **Progressive Enhancement**: Start simple, add complexity
- **Touch-Friendly**: Design for finger navigation
- **Performance**: Optimize for slower connections
- **Content Priority**: Show what matters most

## CSS Grid and Flexbox

Modern CSS layout tools have revolutionized how we approach responsive design.

### CSS Grid
Perfect for two-dimensional layouts:
```css
.grid-container {
  display: grid;
  grid-template-columns: repeat(auto-fit, minmax(300px, 1fr));
  gap: 2rem;
}
```

### Flexbox
Ideal for one-dimensional layouts:
```css
.flex-container {
  display: flex;
  justify-content: space-between;
  align-items: center;
  flex-wrap: wrap;
}
```

## Animation and Micro-interactions

Subtle animations can greatly enhance user experience:

1. **Loading States**: Keep users informed during wait times
2. **Hover Effects**: Provide visual feedback
3. **Transitions**: Smooth state changes
4. **Progressive Disclosure**: Reveal information gradually

## Accessibility Considerations

- **Semantic HTML**: Use proper HTML elements
- **Color Contrast**: Ensure sufficient contrast ratios
- **Keyboard Navigation**: Support keyboard-only users
- **Screen Readers**: Provide appropriate ARIA labels

Building great user interfaces requires balancing aesthetics, functionality, and accessibility. The best interfaces are often invisible to users – they just work.".

(** The fixture of [getMockPosts], lines 236-389. *)
Definition mockPosts : list BlogPost :=
  [ {| id := "1";
       title := "Getting Started with Modern Web Development";
       slug := "getting-started-modern-web-development";
       content := content1;
       excerpt := Some "Explore the latest trends and best practices in modern web development, from frontend frameworks to backend technologies.";
       featured_image := Some "https://images.pexels.com/photos/11035380/pexels-photo-11035380.jpeg?auto=compress&cs=tinysrgb&w=1260&h=750&dpr=2";
       tags := Some ["web development"; "programming"; "technology"; "tutorial"];
       published := Some true;
       published_at := Some (january2024 15);
       created_at := Some (january2024 15);
       updated_at := Some (january2024 15) |};
    {| id := "2";
       title := "The Art of Database Design";
       slug := "art-of-database-design";
       content := content2;
       excerpt := Some "Learn the fundamental principles of database design and discover best practices for creating efficient, scalable data architectures.";
       featured_image := Some "https://images.pexels.com/photos/1181677/pexels-photo-1181677.jpeg?auto=compress&cs=tinysrgb&w=1260&h=750&dpr=2";
       tags := Some ["database"; "mongodb"; "sql"; "design"; "performance"];
       published := Some true;
       published_at := Some (january2024 10);
       created_at := Some (january2024 10);
       updated_at := Some (january2024 10) |};
    {| id := "3";
       title := "Building Responsive User Interfaces";
       slug := "building-responsive-user-interfaces";
       content := content3;
       excerpt := Some "Master the art of creating responsive, accessible user interfaces that provide exceptional user experiences across all devices.";
       featured_image := Some "https://images.pexels.com/photos/196644/pexels-photo-196644.jpeg?auto=compress&cs=tinysrgb&w=1260&h=750&dpr=2";
       tags := Some ["ui design"; "responsive"; "css"; "accessibility"; "frontend"];
       published := Some true;
       published_at := Some (january2024 5);
       created_at := Some (january2024 5);
       updated_at := Some (january2024 5) |} ].

(** The predicate of the search filter, lines 395-399. *)
Definition searchMatches (searchLower : string) (post : BlogPost) : bool :=
  includes (toLowerCase (title post)) searchLower
  || includes (toLowerCase (content post)) searchLower
  || match excerpt post with
     | Some e => truthy e && includes (toLowerCase e) searchLower
     | None => false
     end.

(** The predicate of the tags filter, lines 404-406. *)
Definition tagsMatch (wanted : list string) (post : BlogPost) : bool :=
  match tags post with
  | Some own => existsb (fun tag => existsb (String.eqb tag) own) wanted
  | None => false
  end.

Definition applySearch (search : option string) (l : list BlogPost)
  : list BlogPost :=
  match search with
  | Some s => if truthy s then List.filter (searchMatches (toLowerCase s)) l else l
  | None => l
  end.

Definition applyTags (wanted : option (list string)) (l : list BlogPost)
  : list BlogPost :=
  match wanted with
  | Some ts => if (0 <? List.length ts)%nat then List.filter (tagsMatch ts) l else l
  | None => l
  end.

(** The body of [getMockPosts] once its argument is destructured. *)
Definition mockQuery (page pageSize : Z) (search : option string)
  (wanted : option (list string)) : BlogPostsResponse :=
  let filteredPosts := applyTags wanted (applySearch search mockPosts) in
  let total := Z.of_nat (List.length filteredPosts) in
  let totalPages := ceilDiv total pageSize in
  let start := ((page - 1) * pageSize)%Z in
  let paginatedPosts := slice filteredPosts start (start + pageSize)%Z in
  {| posts := paginatedPosts;
     total := total;
     page := page;
     pageSize := pageSize;
     totalPages := totalPages |}.

(** [getMockPosts({ page = 1, pageSize = 10, search, tags })].  The
    parameter has no default value: called without an argument, the
    destructuring of [undefined] throws. *)
Definition getMockPosts (arg : option BlogPostQuery) : Result BlogPostsResponse :=
  match arg with
  | None => Throw (TypeError "Cannot destructure property 'page' of 'undefined'")
  | Some q =>
      Ok (mockQuery (default 1%Z (q_page q)) (default 10%Z (q_pageSize q))
            (q_search q) (q_tags q))
  end.

Definition getMockAllPosts : Result (list BlogPost) :=
  let* mockData := getMockPosts None in
  Ok (posts mockData).

(** [null] is [None]. *)
Definition getMockPostBySlug (wanted : string) : Result (option BlogPost) :=
  let* all := getMockAllPosts in
  Ok (List.find (fun post => String.eqb (slug post) wanted) all).

(** What [await fetch(...)] and [await response.json()] come to: the
    request fails, or a response arrives with a status and a body that
    parses ([Some]) or does not ([None]). *)
Inductive FetchOutcome (B : Type) : Type :=
| NetworkError
| Response (status : Z) (json : option B).

Arguments NetworkError {B}.
Arguments Response {B} status json.

(** [response.ok] *)
Definition responseOk (status : Z) : bool :=
  (200 <=? status)%Z && (status <=? 299)%Z.

(** [getPosts], lines 34-63; [arg = None] is the call without argument,
    which the default [= {}] covers. *)
Definition getPosts (arg : option BlogPostQuery)
  (reply : FetchOutcome BlogPostsResponse) : Result BlogPostsResponse :=
  let q := default emptyQuery arg in
  let page := default 1%Z (q_page q) in
  let pageSize := default 10%Z (q_pageSize q) in
  let fallback :=
    getMockPosts (Some {| q_page := Some page; q_pageSize := Some pageSize;
                          q_search := q_search q; q_tags := q_tags q |}) in
  match reply with
  | NetworkError => fallback
  | Response status json =>
      if negb (responseOk status) then fallback
      else match json with
           | Some data => Ok data
           | None => fallback
           end
  end.

(** [getPostBySlug], lines 65-83. *)
Definition getPostBySlug (wanted : string)
  (reply : FetchOutcome (option BlogPost)) : Result (option BlogPost) :=
  match reply with
  | NetworkError => getMockPostBySlug wanted
  | Response status json =>
      if (status =? 404)%Z then Ok None
      else if negb (responseOk status) then getMockPostBySlug wanted
      else match json with
           | Some data => Ok data
           | None => getMockPostBySlug wanted
           end
  end.

(** [getAllPosts], lines 85-100. *)
Definition getAllPosts (reply : FetchOutcome BlogPostsResponse)
  : Result (list BlogPost) :=
  match reply with
  | NetworkError => getMockAllPosts
  | Response status json =>
      if negb (responseOk status) then getMockAllPosts
      else match json with
           | Some data => Ok (posts data)
           | None => getMockAllPosts
           end
  end.

(** A response with status 404. *)
Definition notFound {B : Type} (reply : FetchOutcome B) : bool :=
  match reply with
  | NetworkError => false
  | Response status _ => (status =? 404)%Z
  end.

(** A reply on which the request failed or the response is not a 2xx
    one. *)
Definition failed {B : Type} (reply : FetchOutcome B) : bool :=
  match reply with
  | NetworkError => true
  | Response status _ => negb (responseOk status)
  end.

End BlogAPI.

(* ===================================================================== *)
(** ** Regular expressions as MongoDB's [$regex] reads them *)
(* ===================================================================== *)

Module Regex.
Import JSString.

(** The patterns covered: a sequence of ordinary characters and dots.  A
    pattern holding any other metacharacter is left out ([compile] gives
    [None]); MongoDB either evaluates it by the rules of PCRE or rejects
    it as malformed. *)
Inductive atom : Type :=
| Lit (c : ascii)
| Dot.

Definition metacharacters : list ascii :=
  list_ascii_of_string "\^$.|?*+()[]{}".

Definition isMeta (c : ascii) : bool :=
  existsb (Ascii.eqb c) metacharacters.

Fixpoint compile (source : string) : option (list atom) :=
  match source with
  | EmptyString => Some []
  | String c rest =>
      if Ascii.eqb c "."
      then option_map (cons Dot) (compile rest)
      else if isMeta c then None
           else option_map (cons (Lit c)) (compile rest)
  end.

(** The pattern that a text without metacharacters compiles to. *)
Fixpoint literal (s : string) : list atom :=
  match s with
  | EmptyString => []
  | String c s' => Lit c :: literal s'
  end.

Definition newline : ascii := ascii_of_nat 10.

(** Under the option [i] a letter matches in either case; a dot matches
    every character but the newline. *)
Definition atomMatches (a : atom) (c : ascii) : bool :=
  match a with
  | Lit x => Ascii.eqb (toLowerChar x) (toLowerChar c)
  | Dot => negb (Ascii.eqb c newline)
  end.

Fixpoint matchHere (r : list atom) (s : string) : bool :=
  match r with
  | [] => true
  | a :: r' =>
      match s with
      | EmptyString => false
      | String c s' => atomMatches a c && matchHere r' s'
      end
  end.

(** An unanchored pattern matches when it matches at some position. *)
Fixpoint test (r : list atom) (s : string) : bool :=
  matchHere r s ||
  match s with
  | EmptyString => false
  | String _ s' => test r s'
  end.

End Regex.

(* ===================================================================== *)
(** ** The server ([server.js]) *)
(* ===================================================================== *)

Module Server.
Import JSString JS Slug.

(** A document of the [posts] collection, with the fields [POST
    /api/posts] writes (lines 226-237) and the [_id] of [insertOne]. *)
Record Post : Type := {
  _id : string;
  title : string;
  slug : string;
  content : string;
  excerpt : string;
  tags : list string;
  featured_image : string;
  published : bool;
  published_at : option Z;
  created_at : Z;
  updated_at : Z
}.

(** The collection, in insertion order. *)
Definition Store : Type := list Post.

(** An HTTP reply: [res.status(code).json(body)], or an error reply
    [res.status(code).json({ error })] ([res.status(204).send()] is the
    error-free reply without a body). *)
Inductive Reply (A : Type) : Type :=
| Json (status : Z) (body : A)
| Failure (status : Z) (error : string).

Arguments Json {A} status body.
Arguments Failure {A} status error.

(** *** Queries *)

(** [req.query.tags]: one value or a repeated parameter. *)
Inductive TagsParam : Type :=
| OneTag (tag : string)
| ManyTags (tagList : list string).

(** The query string of [GET /api/posts].  [page] and [pageSize] are the
    integers [parseInt] yields ([1] and [10] when the parameter is
    absent); parameters that do not parse to an integer are not
    covered. *)
Record PostsRequest : Type := {
  page : Z;
  pageSize : Z;
  search : option string;
  wanted : option TagsParam;
  publishedParam : option string
}.

(** The filter object [query], lines 123-140. *)
Record Query : Type := {
  q_or : option (list Regex.atom);
  q_tags : option (list string);
  q_published : option bool
}.

Definition tagArray (t : TagsParam) : list string :=
  match t with
  | OneTag s => [s]
  | ManyTags l => l
  end.

Definition tagsTruthy (t : TagsParam) : bool :=
  match t with
  | OneTag s => truthy s
  | ManyTags _ => true
  end.

(** [None] when the search text is outside the patterns of [Regex]. *)
Definition buildQuery (req : PostsRequest) : option Query :=
  let rest (re : option (list Regex.atom)) : Query :=
    {| q_or := re;
       q_tags := match wanted req with
                 | Some t => if tagsTruthy t then Some (tagArray t) else None
                 | None => None
                 end;
       q_published := option_map (String.eqb "true") (publishedParam req) |} in
  match search req with
  | Some s =>
      if truthy s
      then option_map (fun re => rest (Some re)) (Regex.compile s)
      else Some (rest None)
  | None => Some (rest None)
  end.

(** Whether a document satisfies the filter: [$or] over the three text
    fields, [$in] over the tags, equality on [published]. *)
Definition matches (q : Query) (p : Post) : bool :=
  match q_or q with
  | Some re =>
      Regex.test re (title p) || Regex.test re (content p)
      || Regex.test re (excerpt p)
  | None => true
  end
  && match q_tags q with
     | Some ts => existsb (fun own => existsb (String.eqb own) ts) (tags p)
     | None => true
     end
  && match q_published q with
     | Some b => Bool.eqb (published p) b
     | None => true
     end.

Definition find (q : Query) (store : Store) : list Post :=
  List.filter (matches q) store.

Definition countDocuments (q : Query) (store : Store) : Z :=
  Z.of_nat (List.length (find q store)).

(** The order of two dates in a collection: [null] is below every
    date. *)
Definition compareDate (a b : option Z) : comparison :=
  match a, b with
  | None, None => Eq
  | None, Some _ => Lt
  | Some _, None => Gt
  | Some x, Some y => (x ?= y)%Z
  end.

(** The order of the sort key [(published_at, created_at)]. *)
Definition compareKey (p q : Post) : comparison :=
  match compareDate (published_at p) (published_at q) with
  | Eq => (created_at p ?= created_at q)%Z
  | c => c
  end.

(** [p] may stand before [q] under
    [sort({ published_at: -1, created_at: -1 })]. *)
Definition precedes (p q : Post) : bool :=
  match compareKey p q with
  | Lt => false
  | _ => true
  end.

Fixpoint insertSorted (p : Post) (l : list Post) : list Post :=
  match l with
  | [] => [p]
  | q :: l' => if precedes p q then p :: l else q :: insertSorted p l'
  end.

(** [cursor.sort(...)]; documents with equal keys keep their order. *)
Definition sort (l : list Post) : list Post :=
  fold_right insertSorted [] l.

(** [cursor.skip(n)]: the database refuses a negative number. *)
Definition skip (n : Z) (l : list Post) : Result (list Post) :=
  if (n <? 0)%Z then Throw (Error "Skip value must be non-negative")
  else Ok (skipn (Z.to_nat n) l).

(** [cursor.limit(n)]: [0] sets no limit; a negative [n] asks for a
    single batch of at most [-n] documents, and a batch holds at most
    [101]. *)
Definition limit (n : Z) (l : list Post) : list Post :=
  if (n =? 0)%Z then l
  else if (n <? 0)%Z then firstn (Z.to_nat (Z.min (- n) 101)) l
       else firstn (Z.to_nat n) l.

Record PostsResponse : Type := {
  posts : list Post;
  total : Z;
  r_page : Z;
  r_pageSize : Z;
  totalPages : JSNum
}.

(** Lines 142-165 of [GET /api/posts], given the result [total] of
    [countDocuments(query)] and the documents [found] that [find(query)]
    yields. *)
Definition pageOf (total : Z) (found : list Post) (req : PostsRequest)
  : Reply PostsResponse :=
  let pageNum := page req in
  let pageSizeNum := pageSize req in
  let skipped := ((pageNum - 1) * pageSizeNum)%Z in
  let totalPages := ceilDiv total pageSizeNum in
  match skip skipped (sort found) with
  | Throw _ => Failure 500 "Failed to fetch posts"
  | Ok rest =>
      Json 200 {| posts := limit pageSizeNum rest;
                  total := total;
                  r_page := pageNum;
                  r_pageSize := pageSizeNum;
                  totalPages := totalPages |}
  end.

(** [GET /api/posts], lines 110-170.  [None]: the search text is outside
    the patterns of [Regex]. *)
Definition getPosts (store : Store) (req : PostsRequest)
  : option (Reply PostsResponse) :=
  option_map
    (fun query => pageOf (countDocuments query store) (find query store) req)
    (buildQuery req).

(** *** Writes *)

(** [req.body] of a create or an update, at the types of the client's
    [BlogPost]; a field left out is [None]. *)
Record Body : Type := {
  b_title : option string;
  b_content : option string;
  b_excerpt : option string;
  b_tags : option (list string);
  b_featured_image : option string;
  b_published : option bool
}.

Definition truthyField (o : option string) : bool :=
  match o with
  | Some s => truthy s
  | None => false
  end.

(** [o || ''] *)
Definition orEmpty (o : option string) : string :=
  match o with
  | Some s => s
  | None => EmptyString
  end.

Definition slugTaken (s : string) (store : Store) : bool :=
  existsb (fun p => String.eqb (slug p) s) store.

Definition idTaken (i : string) (store : Store) : bool :=
  existsb (fun p => String.eqb (_id p) i) store.

(** [insertOne]: the [_id] index and the unique index on [slug] (line 31)
    refuse a duplicate. *)
Definition insertOne (p : Post) (store : Store) : Result Store :=
  if idTaken (_id p) store || slugTaken (slug p) store
  then Throw (Error "E11000 duplicate key error")
  else Ok (store ++ [p])%list.

(** [POST /api/posts], lines 213-247.  [now] is the reading of
    [new Date()], [newId] the [insertedId]. *)
Definition createPost (store : Store) (body : Body) (now : Z) (newId : string)
  : Store * Reply Post :=
  let published := default false (b_published body) in
  if negb (truthyField (b_title body)) || negb (truthyField (b_content body))
  then (store, Failure 400 "Title and content are required")
  else
    let title := orEmpty (b_title body) in
    let postData :=
      {| _id := newId;
         title := title;
         slug := generateSlug title;
         content := orEmpty (b_content body);
         excerpt := orEmpty (b_excerpt body);
         tags := default [] (b_tags body);
         featured_image := orEmpty (b_featured_image body);
         published := published;
         published_at := if published then Some now else None;
         created_at := now;
         updated_at := now |} in
    match insertOne postData store with
    | Ok store' => (store', Json 201 postData)
    | Throw _ => (store, Failure 500 "Failed to create post")
    end.

(** The object [updateData] of [PUT /api/posts/:id]: the fields to
    [$set]. *)
Record UpdateData : Type := {
  u_updated_at : Z;
  u_title : option string;
  u_slug : option string;
  u_content : option string;
  u_excerpt : option string;
  u_tags : option (list string);
  u_featured_image : option string;
  u_published : option bool;
  u_published_at : option Z
}.

(** Lines 259-276.  [now1] and [now2] are the two readings of
    [new Date()].  The test of line 273 reads [published_at] of
    [updateData] itself. *)
Definition buildUpdate (body : Body) (now1 now2 : Z) : UpdateData :=
  let d0 :=
    {| u_updated_at := now1; u_title := None; u_slug := None;
       u_content := None; u_excerpt := None; u_tags := None;
       u_featured_image := None; u_published := None;
       u_published_at := None |} in
  let d1 :=
    if truthyField (b_title body)
    then {| u_updated_at := u_updated_at d0;
            u_title := b_title body;
            u_slug := option_map generateSlug (b_title body);
            u_content := u_content d0; u_excerpt := u_excerpt d0;
            u_tags := u_tags d0; u_featured_image := u_featured_image d0;
            u_published := u_published d0;
            u_published_at := u_published_at d0 |}
    else d0 in
  (* lines 267-270: each of these is copied unless it is undefined *)
  let d2 :=
    {| u_updated_at := u_updated_at d1; u_title := u_title d1;
       u_slug := u_slug d1;
       u_content := b_content body;
       u_excerpt := b_excerpt body;
       u_tags := b_tags body;
       u_featured_image := b_featured_image body;
       u_published := u_published d1;
       u_published_at := u_published_at d1 |} in
  match b_published body with
  | None => d2
  | Some published =>
      let stamp :=
        if published && negb (match u_published_at d2 with
                              | Some _ => true
                              | None => false
                              end)
        then Some now2
        else u_published_at d2 in
      {| u_updated_at := u_updated_at d2; u_title := u_title d2;
         u_slug := u_slug d2; u_content := u_content d2;
         u_excerpt := u_excerpt d2; u_tags := u_tags d2;
         u_featured_image := u_featured_image d2;
         u_published := Some published;
         u_published_at := stamp |}
  end.

(** [{ $set: updateData }] on one document: a field of [updateData] that
    is set replaces the document's, the others stay. *)
Definition applySet (d : UpdateData) (p : Post) : Post :=
  {| _id := _id p;
     title := default (title p) (u_title d);
     slug := default (slug p) (u_slug d);
     content := default (content p) (u_content d);
     excerpt := default (excerpt p) (u_excerpt d);
     tags := default (tags p) (u_tags d);
     featured_image := default (featured_image p) (u_featured_image d);
     published := default (published p) (u_published d);
     published_at := match u_published_at d with
                     | Some t => Some t
                     | None => published_at p
                     end;
     created_at := created_at p;
     updated_at := u_updated_at d |}.

Definition isHexDigit (c : ascii) : bool :=
  isDigit c || between 97 102 c || between 65 70 c.

(** [ObjectId.isValid(id)] on the text of a URL: 24 hexadecimal
    digits.  The 12-character form that some versions of the driver
    accept as well is left out. *)
Definition isValid (i : string) : bool :=
  (String.length i =? 24)%nat && all isHexDigit i.

(** [new ObjectId(id)]: the digits, in lower case. *)
Definition objectId (i : string) : string := toLowerCase i.

Definition findOne (i : string) (store : Store) : option Post :=
  List.find (fun p => String.eqb (_id p) i) store.

(** The first document with this [_id] is rewritten in place. *)
Fixpoint setFirst (i : string) (d : UpdateData) (store : Store) : Store :=
  match store with
  | [] => []
  | p :: rest =>
      if String.eqb (_id p) i then applySet d p :: rest
      else p :: setFirst i d rest
  end.

(** [updateOne({ _id }, { $set })]: [None] when no document matched
    ([matchedCount === 0]); the unique index refuses a slug that another
    document holds. *)
Definition updateOne (i : string) (d : UpdateData) (store : Store)
  : Result (option Store) :=
  match findOne i store with
  | None => Ok None
  | Some _ =>
      match u_slug d with
      | Some s =>
          if existsb (fun p => String.eqb (slug p) s
                               && negb (String.eqb (_id p) i)) store
          then Throw (Error "E11000 duplicate key error")
          else Ok (Some (setFirst i d store))
      | None => Ok (Some (setFirst i d store))
      end
  end.

(** [PUT /api/posts/:id], lines 250-293. *)
Definition updatePost (store : Store) (i : string) (body : Body)
  (now1 now2 : Z) : Store * Reply (option Post) :=
  if negb (isValid i) then (store, Failure 400 "Invalid id")
  else
    let updateData := buildUpdate body now1 now2 in
    match updateOne (objectId i) updateData store with
    | Throw _ => (store, Failure 500 "Failed to update post")
    | Ok None => (store, Failure 404 "Post not found")
    | Ok (Some store') => (store', Json 200 (findOne (objectId i) store'))
    end.

Fixpoint removeFirst (i : string) (store : Store) : Store :=
  match store with
  | [] => []
  | p :: rest =>
      if String.eqb (_id p) i then rest else p :: removeFirst i rest
  end.

(** [DELETE /api/posts/:id], lines 296-318, on the [posts] collection. *)
Definition deletePost (store : Store) (i : string) : Store * Reply unit :=
  if negb (isValid i) then (store, Failure 400 "Invalid id")
  else
    match findOne (objectId i) store with
    | None => (store, Failure 404 "Post not found")
    | Some _ => (removeFirst (objectId i) store, Json 204 tt)
    end.

(** A request that writes, and the store after it. *)
Record UpdateRequest : Type := {
  target : string;
  changes : Body;
  clock1 : Z;
  clock2 : Z
}.

Definition afterUpdate (store : Store) (r : UpdateRequest) : Store :=
  fst (updatePost store (target r) (changes r) (clock1 r) (clock2 r)).

Definition afterUpdates (store : Store) (rs : list UpdateRequest) : Store :=
  fold_left afterUpdate rs store.

End Server.

(* ===================================================================== *)
(** ** The notions the specification uses *)
(* ===================================================================== *)

Module Spec.
Import JSString JS.

(** [needle] occurs in [hay] as a substring, letters compared without
    regard to case. *)
Definition ciSubstring (needle hay : string) : Prop :=
  exists pre mid post : string,
    hay = pre ++ mid ++ post /\ toLowerCase mid = toLowerCase needle.

(** [n] is [a / b] rounded up, for a positive [b]. *)
Definition isCeiling (n a b : Z) : Prop :=
  ((n - 1) * b < a /\ a <= n * b)%Z.

(** A date is earlier than another; an absent one is earlier than every
    date that is set. *)
Definition earlier (a b : option Z) : Prop :=
  match a, b with
  | None, Some _ => True
  | Some x, Some y => (x < y)%Z
  | _, None => False
  end.

(** The pair [(published_at, created_at)] of a post. *)
Definition SortKey : Type := (option Z * option Z)%type.

(** A post with key [k1] may stand before one with key [k2]: its
    [published_at] is later, or they are the same and its [created_at] is
    not earlier. *)
Definition mayPrecede (k1 k2 : SortKey) : Prop :=
  earlier (fst k2) (fst k1)
  \/ (fst k1 = fst k2 /\ ~ earlier (snd k1) (snd k2)).

Definition sortedBy {A : Type} (key : A -> SortKey) (l : list A) : Prop :=
  StronglySorted (fun p q => mayPrecede (key p) (key q)) l.

(** No post without [published_at] stands before one that has it. *)
Definition unpublishedLast {A : Type} (key : A -> SortKey) (l : list A) : Prop :=
  forall (i j : nat) (p q : A),
    (i < j)%nat -> nth_error l i = Some p -> nth_error l j = Some q ->
    fst (key p) = None -> fst (key q) = None.

Definition serverKey (p : Server.Post) : SortKey :=
  (Server.published_at p, Some (Server.created_at p)).

Definition clientKey (p : BlogAPI.BlogPost) : SortKey :=
  (BlogAPI.published_at p, BlogAPI.created_at p).

(** A list that the comparison of the server's sort accepts. *)
Definition inOrder (l : list Server.Post) : Prop :=
  StronglySorted (fun p q => Server.precedes p q = true) l.

(** The search condition of the specification on the three text fields. *)
Definition serverSearchHit (text : string) (p : Server.Post) : Prop :=
  ciSubstring text (Server.title p)
  \/ ciSubstring text (Server.content p)
  \/ ciSubstring text (Server.excerpt p).

Definition clientSearchHit (text : string) (p : BlogAPI.BlogPost) : Prop :=
  ciSubstring text (BlogAPI.title p)
  \/ ciSubstring text (BlogAPI.content p)
  \/ (exists e, BlogAPI.excerpt p = Some e /\ ciSubstring text e).

End Spec.

(* ===================================================================== *)
(** ** Sample data *)
(* ===================================================================== *)

Module Sample.
Import Server.

Definition day (n : Z) : Z := (n * 86400000)%Z.

Definition post (i t c : string) (isPublished : bool) (publishedAt : option Z)
  (createdAt : Z) : Post :=
  {| _id := i; title := t; slug := Slug.generateSlug t; content := c;
     excerpt := ""; tags := []; featured_image := "";
     published := isPublished; published_at := publishedAt;
     created_at := createdAt; updated_at := createdAt |}.

Definition idA : string := "64b7f0c2a1d3e4f5a6b7c8d1".
Definition idB : string := "64b7f0c2a1d3e4f5a6b7c8d2".
Definition idC : string := "64b7f0c2a1d3e4f5a6b7c8d3".
Definition idD : string := "64b7f0c2a1d3e4f5a6b7c8d4".

Definition first : Post := post idA "First" "alpha" true (Some (day 1)) (day 1).
Definition second : Post := post idB "Second" "beta" true (Some (day 3)) (day 1).
Definition third : Post := post idC "Third" "gamma" true (Some (day 2)) (day 1).
Definition draft : Post := post idD "Draft" "delta" false None (day 4).

(** Three posts published on day 1, day 3 and day 2. *)
Definition threeDays : Store := [first; second; third].

Definition withDraft : Store := [draft; first; second; third].

(** [GET /api/posts] with the defaults [page = 1], [pageSize = 10]. *)
Definition plainRequest : PostsRequest :=
  {| page := 1; pageSize := 10; search := None; wanted := None;
     publishedParam := None |}.

Definition searchFor (text : string) : PostsRequest :=
  {| page := 1; pageSize := 10; search := Some text; wanted := None;
     publishedParam := None |}.

Definition sized (pageNum pageSizeNum : Z) : PostsRequest :=
  {| page := pageNum; pageSize := pageSizeNum; search := None; wanted := None;
     publishedParam := None |}.

(** A post none of whose text fields holds a dot. *)
Definition dotless : Post := post idA "abc" "plain text" true (Some (day 1)) (day 1).

Definition emptyBody : Body :=
  {| b_title := None; b_content := None; b_excerpt := None; b_tags := None;
     b_featured_image := None; b_published := None |}.

(** The bodies [{ published: true }] and [{ published: false }]. *)
Definition publish : Body :=
  {| b_title := None; b_content := None; b_excerpt := None; b_tags := None;
     b_featured_image := None; b_published := Some true |}.

Definition unpublish : Body :=
  {| b_title := None; b_content := None; b_excerpt := None; b_tags := None;
     b_featured_image := None; b_published := Some false |}.

Definition newPost (isPublished : bool) : Body :=
  {| b_title := Some "Test Post"; b_content := Some "This is a test";
     b_excerpt := None; b_tags := None; b_featured_image := None;
     b_published := Some isPublished |}.

Definition clientQuery (pageNum pageSizeNum : Z) (text : option string)
  : BlogAPI.BlogPostQuery :=
  {| BlogAPI.q_page := Some pageNum; BlogAPI.q_pageSize := Some pageSizeNum;
     BlogAPI.q_search := text; BlogAPI.q_tags := None |}.

End Sample.

(* ===================================================================== *)
(** ** Numbers as text: [toString] and [parseInt] *)
(* ===================================================================== *)

Module JSParse.
Import JSString.

(** [n.toString()] for an integer [n]: its decimal digits, with a minus
    sign when it is negative. *)
Definition numberToString (n : Z) : string :=
  DecimalString.NilEmpty.string_of_int (Z.to_int n).

(** [Number.isSafeInteger]: the integers a JavaScript number holds exactly,
    on which [toString] writes plain decimal digits. *)
Definition isSafeInteger (n : Z) : bool :=
  (Z.abs n <=? 2 ^ 53 - 1)%Z.

(** The value of a character as a digit: [0-9], then [a-z] or [A-Z] for
    ten to thirty-five. *)
Definition digitValue (c : ascii) : option Z :=
  if isDigit c then Some (Z.of_nat (code c) - 48)%Z
  else if isLower c then Some (Z.of_nat (code c) - 87)%Z
  else if isUpper c then Some (Z.of_nat (code c) - 55)%Z
  else None.

(** The value of the longest prefix of [s] made of digits of the radix,
    continuing from [acc]; [seen] tells that a digit was read.  [None] is
    NaN: no digit at all. *)
Fixpoint digits (radix : Z) (s : string) (acc : Z) (seen : bool) : option Z :=
  let stop := if seen then Some acc else None in
  match s with
  | EmptyString => stop
  | String c s' =>
      match digitValue c with
      | Some d =>
          if (d <? radix)%Z then digits radix s' (acc * radix + d)%Z true
          else stop
      | None => stop
      end
  end.

(** [parseInt(s)]: leading whitespace is skipped, a sign is read, a prefix
    [0x] or [0X] selects radix sixteen, and the digits that follow are
    read as far as they go. *)
Definition parseInt (s : string) : option Z :=
  let s1 := trimStartBy isSpace s in
  let '(sign, s2) :=
    match s1 with
    | String "-" rest => ((-1)%Z, rest)
    | String "+" rest => (1%Z, rest)
    | _ => (1%Z, s1)
    end in
  let '(radix, s3) :=
    match s2 with
    | String "0" (String "x" rest) => (16%Z, rest)
    | String "0" (String "X" rest) => (16%Z, rest)
    | _ => (10%Z, s2)
    end in
  option_map (Z.mul sign) (digits radix s3 0%Z false).

(** [parseInt(v) || 0] for a field [v] that may be absent: NaN and zero
    both give zero. *)
Definition parseIntOrZero (v : option string) : Z :=
  match v with
  | Some s => JS.default 0%Z (parseInt s)
  | None => 0%Z
  end.

End JSParse.

(* ===================================================================== *)
(** ** The server: reading one post, and the images *)
(* ===================================================================== *)

Module Reads.
Import JSString JS.

(** [GET /api/posts/:id], lines 173-191. *)
Definition getPostById (store : Server.Store) (i : string)
  : Server.Reply Server.Post :=
  if negb (Server.isValid i) then Server.Failure 400 "Invalid id"
  else
    match Server.findOne (Server.objectId i) store with
    | None => Server.Failure 404 "Post not found"
    | Some post => Server.Json 200 post
    end.

(** [findOne({ slug })] *)
Definition findOneBySlug (wanted : string) (store : Server.Store)
  : option Server.Post :=
  List.find (fun p => String.eqb (Server.slug p) wanted) store.

(** [GET /api/posts/slug/:slug], lines 194-210. *)
Definition getPostBySlug (store : Server.Store) (wanted : string)
  : Server.Reply Server.Post :=
  match findOneBySlug wanted store with
  | None => Server.Failure 404 "Post not found"
  | Some post => Server.Json 200 post
  end.

(** Lines 112-118 and 146-147 of [GET /api/posts]: the texts of the query
    string become a request.  [page] and [pageSize] default to the numbers
    [1] and [10], which [parseInt] reads back as they are.  [None]: one of
    them parses to NaN. *)
Definition readRequest (pageText pageSizeText search : option string)
  (wanted : option Server.TagsParam) (publishedText : option string)
  : option Server.PostsRequest :=
  match JSParse.parseInt (default (JSParse.numberToString 1) pageText),
        JSParse.parseInt (default (JSParse.numberToString 10) pageSizeText) with
  | Some pageNum, Some pageSizeNum =>
      Some {| Server.page := pageNum; Server.pageSize := pageSizeNum;
              Server.search := search; Server.wanted := wanted;
              Server.publishedParam := publishedText |}
  | _, _ => None
  end.

End Reads.

Module Images.
Import JSString JS.

(** A document of the [images] collection, lines 355-362. *)
Record Image : Type := {
  _id : string;
  post_id : string;
  image_url : string;
  alt_text : string;
  caption : string;
  position : Z;
  created_at : Z
}.

Definition ImageStore : Type := list Image.

(** [req.file]: the name of the uploaded file, and whether [sharp] can
    decode its bytes and write the result. *)
Record File : Type := {
  originalname : string;
  processable : bool
}.

(** [processAndSaveImage], lines 83-105; [stamp] is the reading of
    [Date.now()]. *)
Definition processAndSaveImage (f : File) (stamp : Z) : Result string :=
  if processable f
  then Ok ("/uploads/processed_" ++ JSParse.numberToString stamp ++ "_"
           ++ originalname f)
  else Throw (Error "Input buffer contains unsupported image format").

(** The text fields of the multipart body. *)
Record ImageFields : Type := {
  f_alt_text : option string;
  f_caption : option string;
  f_position : option string
}.

Definition orEmpty (o : option string) : string :=
  match o with
  | Some s => s
  | None => EmptyString
  end.

Definition idTaken (i : string) (images : ImageStore) : bool :=
  existsb (fun img => String.eqb (_id img) i) images.

(** [POST /api/upload], lines 321-339: the reply carries [imageUrl]. *)
Definition uploadImage (file : option File) (stamp : Z) : Server.Reply string :=
  match file with
  | None => Server.Failure 400 "No image file provided"
  | Some f =>
      match processAndSaveImage f stamp with
      | Ok imageUrl => Server.Json 200 imageUrl
      | Throw _ => Server.Failure 500 "Failed to upload image"
      end
  end.

(** [POST /api/posts/:id/images], lines 342-372.  [now] is the reading of
    [new Date()], [newId] the [insertedId]. *)
Definition addImage (images : ImageStore) (i : string) (fields : ImageFields)
  (file : option File) (stamp now : Z) (newId : string)
  : ImageStore * Server.Reply Image :=
  match file with
  | None => (images, Server.Failure 400 "No image file provided")
  | Some f =>
      match processAndSaveImage f stamp with
      | Throw _ => (images, Server.Failure 500 "Failed to add image to post")
      | Ok imageUrl =>
          let imageData :=
            {| _id := newId;
               post_id := i;
               image_url := imageUrl;
               alt_text := orEmpty (f_alt_text fields);
               caption := orEmpty (f_caption fields);
               position := JSParse.parseIntOrZero (f_position fields);
               created_at := now |} in
          if idTaken newId images
          then (images, Server.Failure 500 "Failed to add image to post")
          else ((images ++ [imageData])%list, Server.Json 201 imageData)
      end
  end.

Fixpoint insertByPosition (img : Image) (l : list Image) : list Image :=
  match l with
  | [] => [img]
  | other :: l' =>
      if (position img <? position other)%Z then img :: l
      else other :: insertByPosition img l'
  end.

(** [cursor.sort({ position: 1 })]; images with equal positions keep their
    order. *)
Definition sortByPosition (l : list Image) : list Image :=
  fold_right insertByPosition [] l.

(** [GET /api/posts/:id/images], lines 375-390. *)
Definition getPostImages (images : ImageStore) (i : string) : list Image :=
  sortByPosition (List.filter (fun img => String.eqb (post_id img) i) images).

(** [deleteMany({ post_id: id })] *)
Definition deleteMany (i : string) (images : ImageStore) : ImageStore :=
  List.filter (fun img => negb (String.eqb (post_id img) i)) images.

(** [DELETE /api/posts/:id], lines 296-318, on both collections: the
    images go once the post is deleted. *)
Definition deletePost (store : Server.Store) (images : ImageStore) (i : string)
  : Server.Store * ImageStore * Server.Reply unit :=
  match Server.deletePost store i with
  | (store', Server.Json status body) =>
      (store', deleteMany i images, Server.Json status body)
  | (store', Server.Failure status error) =>
      (store', images, Server.Failure status error)
  end.

End Images.

(* ===================================================================== *)
(** ** The components that call the proxy *)
(* ===================================================================== *)

Module Components.
Import JSString JS.

(** *** [Pagination] *)

(** A button of the pager: a page number or the ellipsis ['...']. *)
Inductive PageItem : Type :=
| PageNumber (n : Z)
| Dots.

(** The integers from [lo] to [hi], as the [for] loop pushes them. *)
Definition zrange (lo hi : Z) : list Z :=
  List.map (fun k => (lo + Z.of_nat k)%Z) (seq 0 (Z.to_nat (hi - lo + 1))).

(** [getVisiblePages] *)
Definition getVisiblePages (currentPage totalPages : Z) : list PageItem :=
  let delta := 2%Z in
  let range :=
    zrange (Z.max 2 (currentPage - delta))
           (Z.min (totalPages - 1) (currentPage + delta)) in
  let leading :=
    if (2 <? currentPage - delta)%Z then [PageNumber 1; Dots]
    else [PageNumber 1] in
  let trailing :=
    if (currentPage + delta <? totalPages - 1)%Z
    then [Dots; PageNumber totalPages]
    else if (1 <? totalPages)%Z then [PageNumber totalPages] else [] in
  (leading ++ List.map PageNumber range ++ trailing)%list.

(** The component renders nothing for a single page. *)
Definition Pagination (currentPage totalPages : Z) : option (list PageItem) :=
  if (totalPages <=? 1)%Z then None
  else Some (getVisiblePages currentPage totalPages).

(** The numbers among the buttons, in order. *)
Fixpoint pageNumbers (items : list PageItem) : list Z :=
  match items with
  | [] => []
  | PageNumber n :: rest => n :: pageNumbers rest
  | Dots :: rest => pageNumbers rest
  end.

(** *** [SearchBar] *)

Definition arrayIncludes (l : list string) (x : string) : bool :=
  existsb (String.eqb x) l.

(** [handleTagToggle] *)
Definition handleTagToggle (prev : list string) (tag : string) : list string :=
  if arrayIncludes prev tag
  then List.filter (fun t => negb (String.eqb t tag)) prev
  else (prev ++ [tag])%list.

(** *** [AdminPage] *)

(** [handleAddTag]: the tags of the form after the button is pressed with
    [newTag] in the input. *)
Definition handleAddTag (tags : list string) (newTag : string) : list string :=
  if truthy (trim newTag) && negb (arrayIncludes tags (trim newTag))
  then (tags ++ [trim newTag])%list
  else tags.

(** [handleRemoveTag] *)
Definition handleRemoveTag (tags : list string) (tagToRemove : string)
  : list string :=
  List.filter (fun tag => negb (String.eqb tag tagToRemove)) tags.

(** *** [MarkdownEditor] *)

Fixpoint take (n : nat) (s : string) : string :=
  match n, s with
  | S n', String c s' => String c (take n' s')
  | _, _ => EmptyString
  end.

Fixpoint drop (n : nat) (s : string) : string :=
  match n, s with
  | S n', String _ s' => drop n' s'
  | _, _ => s
  end.

(** [s.substring(a, b)]: both bounds are clamped to the string and swapped
    when they are out of order. *)
Definition substring (s : string) (a b : nat) : string :=
  let a' := Nat.min a (String.length s) in
  let b' := Nat.min b (String.length s) in
  take (Nat.max a' b' - Nat.min a' b') (drop (Nat.min a' b') s).

(** [s.substring(a)] *)
Definition substringFrom (s : string) (a : nat) : string :=
  drop (Nat.min a (String.length s)) s.

(** [insertMarkdown(before, after)] on the text [value] with the selection
    from [selStart] to [selEnd]: the new text and the selection that is set
    afterwards. *)
Definition insertMarkdown (value : string) (selStart selEnd : nat)
  (before after : string) : string * (nat * nat) :=
  let beforeText := substring value 0 selStart in
  let selectedText := substring value selStart selEnd in
  let afterText := substringFrom value selEnd in
  (beforeText ++ before ++ selectedText ++ after ++ afterText,
   (selStart + String.length before, selEnd + String.length before)%nat).

(** *** [HomePage] *)

(** The two numbers of "Showing a - b of total posts". *)
Definition shownFrom (r : BlogAPI.BlogPostsResponse) : Z :=
  ((BlogAPI.page r - 1) * BlogAPI.pageSize r + 1)%Z.

Definition shownTo (r : BlogAPI.BlogPostsResponse) : Z :=
  Z.min (BlogAPI.page r * BlogAPI.pageSize r) (BlogAPI.total r).

(** [tags.add(tag)] on a [Set], which keeps the order of insertion. *)
Definition setAdd (tags : list string) (tag : string) : list string :=
  if arrayIncludes tags tag then tags else (tags ++ [tag])%list.

(** The loop of [fetchAllTags]: the tags of the published posts. *)
Definition collectTags (allPosts : list BlogAPI.BlogPost) : list string :=
  fold_left
    (fun tags post =>
       match BlogAPI.published post, BlogAPI.tags post with
       | Some true, Some own => fold_left setAdd own tags
       | _, _ => tags
       end)
    allPosts [].

Fixpoint insertString (x : string) (l : list string) : list string :=
  match l with
  | [] => [x]
  | y :: l' => if String.leb x y then x :: l else y :: insertString x l'
  end.

(** [array.sort()] on strings: ascending by character codes. *)
Definition sortStrings (l : list string) : list string :=
  fold_right insertString [] l.

(** [Array.from(tags).sort()] *)
Definition allTags (allPosts : list BlogAPI.BlogPost) : list string :=
  sortStrings (collectTags allPosts).

End Components.

(* ===================================================================== *)
(** ** Notions for the properties of the handlers *)
(* ===================================================================== *)

Module Notions.

(** No two posts share an [_id] or a [slug]: what the two unique indexes
    enforce. *)
Definition uniqueKeys (store : Server.Store) : Prop :=
  NoDup (List.map Server._id store) /\ NoDup (List.map Server.slug store).

(** Every post has a title, and its slug is the slug of its title. *)
Definition slugsDerived (store : Server.Store) : Prop :=
  Forall (fun p => Server.title p <> EmptyString
                   /\ Server.slug p = Slug.generateSlug (Server.title p))
    store.

(** The pages [1] to [n]. *)
Definition pagesUpTo (n : nat) : list Z :=
  List.map (fun k => Z.of_nat (S k)) (seq 0 n).


(** The posts of a reply of the server, none for an error. *)
Definition items (reply : Server.Reply Server.PostsResponse)
  : list Server.Post :=
  match reply with
  | Server.Json _ r => Server.posts r
  | Server.Failure _ _ => []
  end.

(** An image may stand before another in the list of a post. *)
Definition byPosition (a b : Images.Image) : Prop :=
  (Images.position a <= Images.position b)%Z.

(** A post carries one of the tags. *)
Definition sharesTag (wanted own : list string) : Prop :=
  exists tag, In tag wanted /\ In tag own.

(** A tag as the admin form keeps them: not empty, no whitespace at either
    end. *)
Definition tidyTag (tag : string) : Prop :=
  tag <> EmptyString /\ JSString.trim tag = tag.

(** [t] is a tag of a published post of [posts]. *)
Definition taggedBy (posts : list BlogAPI.BlogPost) (t : string) : Prop :=
  exists post own,
    In post posts /\ BlogAPI.published post = Some true
    /\ BlogAPI.tags post = Some own /\ In t own.

End Notions.

(* ===================================================================== *)
(** ** More sample data *)
(* ===================================================================== *)

Module MoreSamples.




Definition photo : Images.File :=
  {| Images.originalname := "cat.png"; Images.processable := true |}.

Definition noFields : Images.ImageFields :=
  {| Images.f_alt_text := None; Images.f_caption := None;
     Images.f_position := None |}.

Definition atPosition (n : Z) : Images.ImageFields :=
  {| Images.f_alt_text := None; Images.f_caption := None;
     Images.f_position := Some (JSParse.numberToString n) |}.

Definition image (i owner : string) (at_ : Z) : Images.Image :=
  {| Images._id := i; Images.post_id := owner;
     Images.image_url := "/uploads/processed_1_cat.png";
     Images.alt_text := ""; Images.caption := ""; Images.position := at_;
     Images.created_at := 1 |}.

(** Two images of the first sample post, out of order, and one of the
    second. *)
Definition gallery : Images.ImageStore :=
  [ image "i1" Sample.idA 2; image "i2" Sample.idB 0; image "i3" Sample.idA 1 ].

End MoreSamples.

(* ===================================================================== *)
(** * Properties *)
(* ===================================================================== *)

(** ** Characters and strings *)

Module StringFacts.
Import JSString Slug.

(** Case analysis over the 256 characters. *)
Ltac by_cases_on c :=
  destruct c as [[] [] [] [] [] [] [] []]; vm_compute; congruence.

Lemma clean_not_space (c : ascii) : cleanChar c = true -> isSpace c = false.
Proof. by_cases_on c. Qed.

Lemma clean_is_slugChar (c : ascii) : cleanChar c = true -> slugChar c = true.
Proof. by_cases_on c. Qed.

Lemma clean_is_lower (c : ascii) : cleanChar c = true -> toLowerChar c = c.
Proof. by_cases_on c. Qed.

Lemma slugChar_not_space_clean (c : ascii) :
  slugChar c = true -> isSpace c = false -> cleanChar c = true.
Proof. by_cases_on c. Qed.

Lemma hyphen_is_clean (c : ascii) : isHyphen c = true -> cleanChar c = true.
Proof. by_cases_on c. Qed.

Lemma toLowerChar_idem (c : ascii) : toLowerChar (toLowerChar c) = toLowerChar c.
Proof. by_cases_on c. Qed.

Lemma all_cons (p : ascii -> bool) (c : ascii) (s : string) :
  all p (String c s) = true <-> p c = true /\ all p s = true.
Proof. simpl. apply andb_true_iff. Qed.

Lemma all_filter (p : ascii -> bool) (s : string) : all p (filter p s) = true.
Proof.
  induction s as [|c s IH]; simpl; [reflexivity|].
  destruct (p c) eqn:Hc; simpl; [rewrite Hc|]; exact IH.
Qed.

Lemma spaces_to_hyphens_clean (s : string) :
  all slugChar s = true ->
  forall b, all cleanChar (replaceRunsFrom isSpace b s) = true.
Proof.
  induction s as [|c s IH]; simpl; intros H b; [reflexivity|].
  apply andb_true_iff in H as [Hc Hs].
  destruct (isSpace c) eqn:Hsp.
  - destruct b; simpl; auto.
  - simpl. rewrite (slugChar_not_space_clean c Hc Hsp). simpl. auto.
Qed.

Lemma squeeze_clean (s : string) :
  all cleanChar s = true ->
  forall b, all cleanChar (replaceRunsFrom isHyphen b s) = true.
Proof.
  induction s as [|c s IH]; simpl; intros H b; [reflexivity|].
  apply andb_true_iff in H as [Hc Hs].
  destruct (isHyphen c) eqn:Hh.
  - destruct b; simpl; auto.
  - simpl. rewrite Hc. simpl. auto.
Qed.

Lemma trimStartBy_id (p : ascii -> bool) (s : string) :
  all (fun c => negb (p c)) s = true -> trimStartBy p s = s.
Proof.
  destruct s as [|c s]; simpl; [reflexivity|].
  intros H. apply andb_true_iff in H as [Hc _].
  apply negb_true_iff in Hc. now rewrite Hc.
Qed.

Lemma trimEndBy_id (p : ascii -> bool) (s : string) :
  all (fun c => negb (p c)) s = true -> trimEndBy p s = s.
Proof.
  induction s as [|c s IH]; simpl; [reflexivity|].
  intros H. apply andb_true_iff in H as [Hc Hs].
  rewrite (IH Hs). apply negb_true_iff in Hc.
  destruct s; [now rewrite Hc | reflexivity].
Qed.

Lemma all_impl (p q : ascii -> bool) (s : string) :
  (forall c, p c = true -> q c = true) -> all p s = true -> all q s = true.
Proof.
  intros Hpq. induction s as [|c s IH]; simpl; [reflexivity|].
  intros H. apply andb_true_iff in H as [Hc Hs].
  now rewrite (Hpq c Hc), (IH Hs).
Qed.

Lemma trim_clean (s : string) : all cleanChar s = true -> trim s = s.
Proof.
  intros H.
  assert (Hn : all (fun c => negb (isSpace c)) s = true).
  { revert H. apply all_impl. intros c Hc.
    now rewrite (clean_not_space c Hc). }
  unfold trim. rewrite (trimStartBy_id _ _ Hn). now apply trimEndBy_id.
Qed.

Lemma toLowerCase_clean (s : string) :
  all cleanChar s = true -> toLowerCase s = s.
Proof.
  induction s as [|c s IH]; simpl; [reflexivity|].
  intros H. apply andb_true_iff in H as [Hc Hs].
  unfold toLowerCase in *. simpl.
  now rewrite (clean_is_lower c Hc), (IH Hs).
Qed.

Lemma filter_clean (s : string) :
  all cleanChar s = true -> filter slugChar s = s.
Proof.
  induction s as [|c s IH]; simpl; [reflexivity|].
  intros H. apply andb_true_iff in H as [Hc Hs].
  now rewrite (clean_is_slugChar c Hc), (IH Hs).
Qed.

Lemma spaces_to_hyphens_id (s : string) :
  all cleanChar s = true -> forall b, replaceRunsFrom isSpace b s = s.
Proof.
  induction s as [|c s IH]; simpl; [reflexivity|].
  intros H b. apply andb_true_iff in H as [Hc Hs].
  now rewrite (clean_not_space c Hc), (IH Hs).
Qed.

(** Squeezing hyphens twice is squeezing them once, from either state. *)
Lemma squeeze_twice (s : string) :
  replaceRunsFrom isHyphen false (replaceRunsFrom isHyphen false s)
    = replaceRunsFrom isHyphen false s
  /\ replaceRunsFrom isHyphen true (replaceRunsFrom isHyphen true s)
    = replaceRunsFrom isHyphen true s.
Proof.
  induction s as [|c s [IH1 IH2]]; simpl; [split; reflexivity|].
  destruct (isHyphen c) eqn:Hc; simpl.
  - split; [now rewrite IH2 | exact IH2].
  - rewrite Hc. split; now rewrite IH1.
Qed.

(** The string before [trim] holds no whitespace, so [trim] returns it
    as it is. *)
Lemma slug_before_trim_clean (x : string) :
  all cleanChar
    (replaceRuns isHyphen (replaceRuns isSpace (filter slugChar (toLowerCase x))))
  = true.
Proof.
  unfold replaceRuns. apply squeeze_clean, spaces_to_hyphens_clean, all_filter.
Qed.

Lemma generateSlug_without_trim (x : string) :
  generateSlug x
  = replaceRuns isHyphen (replaceRuns isSpace (filter slugChar (toLowerCase x))).
Proof. unfold generateSlug. apply trim_clean, slug_before_trim_clean. Qed.

(** The algorithm of the specification is the code followed by the
    removal of the hyphens at both ends. *)
Lemma specSlug_trims_generateSlug (x : string) :
  specSlug x
  = trimEndBy isSpaceOrHyphen (trimStartBy isSpaceOrHyphen (generateSlug x)).
Proof. now rewrite generateSlug_without_trim. Qed.

Lemma generateSlug_clean (x : string) : all cleanChar (generateSlug x) = true.
Proof. rewrite generateSlug_without_trim. apply slug_before_trim_clean. Qed.

End StringFacts.

(** ** The slug generator *)

Module SlugFacts.
Import JSString Slug StringFacts.

(** C8.  [generateSlug] applied to its own result returns that result, for
    every input; ["Hello, World!  2024"] becomes ["hello-world-2024"] and
    the empty title the empty slug. *)
Theorem generateSlug_idempotent :
  (forall x : string, generateSlug (generateSlug x) = generateSlug x)
  /\ generateSlug "Hello, World!  2024" = "hello-world-2024"
  /\ generateSlug "" = "".
Proof.
  split; [|split; reflexivity].
  intros x.
  pose proof (generateSlug_clean x) as Hclean.
  rewrite (generateSlug_without_trim (generateSlug x)).
  rewrite (toLowerCase_clean _ Hclean), (filter_clean _ Hclean).
  unfold replaceRuns. rewrite (spaces_to_hyphens_id _ Hclean).
  rewrite (generateSlug_without_trim x). unfold replaceRuns.
  apply (proj1 (squeeze_twice _)).
Qed.

(** C7.  On a title with whitespace at its ends the code returns a slug
    with a hyphen at each end: the whitespace has become hyphens before
    [trim] runs.  The algorithm as the specification words it removes
    them. *)
Theorem generateSlug_keeps_edge_hyphens :
  generateSlug " Hello World " = "-hello-world-"
  /\ first (generateSlug " Hello World ") = Some "-"%char
  /\ last (generateSlug " Hello World ") = Some "-"%char
  /\ specSlug " Hello World " = "hello-world".
Proof. repeat split; reflexivity. Qed.

End SlugFacts.

(** ** Searching *)

Module SearchFacts.
Import JSString Spec.

Lemma prefix_iff (t s : string) :
  prefix t s = true <-> exists rest, s = t ++ rest.
Proof.
  revert s. induction t as [|a t IH]; intros s; simpl.
  - destruct s; split; eauto.
  - destruct s as [|b s]; simpl.
    + split; [discriminate | intros [rest H]; discriminate].
    + destruct (ascii_dec a b) as [->|Hab].
      * rewrite IH. split; intros [rest H]; exists rest;
          [now rewrite H | now inversion H].
      * split; [discriminate | intros [rest H]; inversion H; congruence].
Qed.

Lemma includes_iff (s t : string) :
  includes s t = true <-> exists pre post, s = pre ++ t ++ post.
Proof.
  induction s as [|c s IH]; cbn [includes].
  - rewrite orb_false_r, prefix_iff. split.
    + intros [rest H]. now exists "", rest.
    + intros [pre [post H]]. destruct pre; [now exists post | discriminate].
  - rewrite orb_true_iff, IH, prefix_iff. split.
    + intros [[rest H] | [pre [post H]]].
      * now exists "", rest.
      * exists (String c pre), post. simpl. now rewrite H.
    + intros [pre [post H]]. destruct pre as [|c' pre]; simpl in H.
      * left. now exists post.
      * right. inversion H. now exists pre, post.
Qed.

Lemma map_app (f : ascii -> ascii) (a b : string) :
  map f (a ++ b) = map f a ++ map f b.
Proof. induction a as [|c a IH]; simpl; [reflexivity | now rewrite IH]. Qed.

Lemma map_eq_app (f : ascii -> ascii) (s a b : string) :
  map f s = a ++ b ->
  exists a0 b0, s = a0 ++ b0 /\ map f a0 = a /\ map f b0 = b.
Proof.
  revert s. induction a as [|c a IH]; intros s H; simpl in H.
  - now exists "", s.
  - destruct s as [|d s]; simpl in H; [discriminate|].
    inversion H as [[Hc Hrest]].
    destruct (IH s Hrest) as [a0 [b0 [Hs [Ha Hb]]]].
    exists (String d a0), b0. simpl. now rewrite Hs, Ha.
Qed.

(** [hay.toLowerCase().includes(needle.toLowerCase())] decides the
    occurrence without regard to case. *)
Lemma includes_lower_iff (needle hay : string) :
  includes (toLowerCase hay) (toLowerCase needle) = true
  <-> ciSubstring needle hay.
Proof.
  rewrite includes_iff. unfold ciSubstring, toLowerCase. split.
  - intros [pre [post H]].
    destruct (map_eq_app _ _ _ _ H) as [a0 [b0 [Hs [_ Hb]]]].
    destruct (map_eq_app _ _ _ _ Hb) as [m [c0 [Hb0 [Hm _]]]].
    exists a0, m, c0. now rewrite Hs, Hb0.
  - intros [pre [mid [post [H Hm]]]].
    exists (map toLowerChar pre), (map toLowerChar post).
    now rewrite H, !map_app, Hm.
Qed.

Lemma toLowerCase_idem (s : string) : toLowerCase (toLowerCase s) = toLowerCase s.
Proof.
  unfold toLowerCase. induction s as [|c s IH]; simpl; [reflexivity|].
  now rewrite StringFacts.toLowerChar_idem, IH.
Qed.

Lemma truthy_iff (s : string) : truthy s = true <-> s <> "".
Proof. destruct s; simpl; split; congruence. Qed.

Lemma ciSubstring_nonempty (needle hay : string) :
  needle <> "" -> ciSubstring needle hay -> hay <> "".
Proof.
  intros Hn [pre [mid [post [H Hm]]]] ->.
  destruct pre; [|discriminate]. destruct mid; [|discriminate].
  destruct needle; [congruence | discriminate].
Qed.

(** The filter of the fixture fallback is the search condition of the
    specification. *)
Lemma client_searchMatches_iff (text : string) (p : BlogAPI.BlogPost) :
  text <> "" ->
  BlogAPI.searchMatches (toLowerCase text) p = true <-> clientSearchHit text p.
Proof.
  intros Hne. unfold BlogAPI.searchMatches, clientSearchHit.
  rewrite !orb_true_iff, !includes_lower_iff.
  split.
  - intros [[H | H] | H]; auto.
    destruct (BlogAPI.excerpt p) as [e|]; [|discriminate].
    apply andb_true_iff in H as [_ H]. apply includes_lower_iff in H.
    right; right. now exists e.
  - intros [H | [H | [e [He H]]]]; auto.
    right. rewrite He. apply andb_true_iff. split.
    + apply truthy_iff. now apply (ciSubstring_nonempty text).
    + now apply includes_lower_iff.
Qed.

Lemma isMeta_dot (c : ascii) : Ascii.eqb c "." = true -> Regex.isMeta c = true.
Proof. StringFacts.by_cases_on c. Qed.

Lemma compile_literal (s : string) :
  all (fun c => negb (Regex.isMeta c)) s = true ->
  Regex.compile s = Some (Regex.literal s).
Proof.
  induction s as [|c s IH]; simpl; [reflexivity|].
  intros H. apply andb_true_iff in H as [Hc Hs].
  apply negb_true_iff in Hc.
  destruct (Ascii.eqb c ".") eqn:Hdot.
  - rewrite (isMeta_dot c Hdot) in Hc. discriminate.
  - now rewrite Hc, (IH Hs).
Qed.

Lemma matchHere_literal (s hay : string) :
  Regex.matchHere (Regex.literal s) hay = prefix (toLowerCase s) (toLowerCase hay).
Proof.
  revert hay. induction s as [|c s IH]; intros hay; simpl.
  - now destruct hay.
  - destruct hay as [|d hay]; simpl; [reflexivity|].
    rewrite IH. unfold toLowerCase.
    destruct (ascii_dec (toLowerChar c) (toLowerChar d)) as [E|E].
    + rewrite E, Ascii.eqb_refl. reflexivity.
    + apply Ascii.eqb_neq in E. now rewrite E.
Qed.

Lemma test_literal (s hay : string) :
  Regex.test (Regex.literal s) hay = includes (toLowerCase hay) (toLowerCase s).
Proof.
  induction hay as [|d hay IH]; simpl.
  - now rewrite matchHere_literal.
  - rewrite matchHere_literal, IH. reflexivity.
Qed.

(** For a search text without metacharacters the server's [$regex]
    filter is the search condition of the specification. *)
Lemma server_literal_search_iff (text : string) (p : Server.Post) :
  Regex.test (Regex.literal text) (Server.title p)
  || Regex.test (Regex.literal text) (Server.content p)
  || Regex.test (Regex.literal text) (Server.excerpt p) = true
  <-> serverSearchHit text p.
Proof.
  unfold serverSearchHit.
  rewrite !test_literal, !orb_true_iff, !includes_lower_iff. tauto.
Qed.

End SearchFacts.

Module SearchResults.
Import JSString JS Spec SearchFacts.

Lemma slice_whole {A : Type} (l : list A) (n : Z) :
  (Z.of_nat (List.length l) <= n)%Z -> slice l 0 n = l.
Proof.
  intros H. unfold slice, relativeIndex.
  assert (Hn : (n <? 0)%Z = false) by (apply Z.ltb_ge; lia).
  rewrite Hn. simpl (0 <? 0)%Z. cbv iota.
  rewrite (Z.min_l 0) by lia. rewrite (Z.min_r n) by lia.
  rewrite Z.sub_0_r, Nat2Z.id. simpl. apply firstn_all.
Qed.

Lemma applySearch_length (search : option string) (l : list BlogAPI.BlogPost) :
  (List.length (BlogAPI.applySearch search l) <= List.length l)%nat.
Proof.
  unfold BlogAPI.applySearch. destruct search as [s|]; [|lia].
  destruct (truthy s); [apply filter_length_le | lia].
Qed.

(** The fixture fallback with the default page and no tag filter returns
    exactly the fixture posts that the search text occurs in, and the whole
    fixture when the search text is absent or empty. *)
Lemma client_search_result (text : string) (p : BlogAPI.BlogPost) :
  (text <> "" ->
   In p (BlogAPI.posts (BlogAPI.mockQuery 1 10 (Some text) None))
   <-> In p BlogAPI.mockPosts /\ clientSearchHit text p)
  /\ BlogAPI.posts (BlogAPI.mockQuery 1 10 None None) = BlogAPI.mockPosts
  /\ BlogAPI.posts (BlogAPI.mockQuery 1 10 (Some "") None) = BlogAPI.mockPosts.
Proof.
  split; [|split; reflexivity].
  intros Hne. unfold BlogAPI.mockQuery. cbn [BlogAPI.posts BlogAPI.applyTags].
  change ((1 - 1) * 10)%Z with 0%Z. change (0 + 10)%Z with 10%Z.
  rewrite slice_whole.
  - unfold BlogAPI.applySearch.
    rewrite (proj2 (truthy_iff text) Hne), filter_In.
    now rewrite client_searchMatches_iff.
  - pose proof (applySearch_length (Some text) BlogAPI.mockPosts) as H.
    change (List.length BlogAPI.mockPosts) with 3%nat in H. lia.
Qed.

(** On the server a search text made of ordinary characters selects the
    posts it occurs in. *)
Lemma server_literal_query (req : Server.PostsRequest) (text : string) :
  Server.search req = Some text ->
  text <> "" ->
  all (fun c => negb (Regex.isMeta c)) text = true ->
  Server.wanted req = None ->
  Server.publishedParam req = None ->
  exists q, Server.buildQuery req = Some q
            /\ forall p, Server.matches q p = true <-> serverSearchHit text p.
Proof.
  intros Hs Hne Hlit Hw Hp. unfold Server.buildQuery.
  rewrite Hs, Hw, Hp, (proj2 (truthy_iff text) Hne), (compile_literal _ Hlit).
  eexists. split; [reflexivity|].
  intros p. unfold Server.matches. cbn.
  rewrite !andb_true_r. apply server_literal_search_iff.
Qed.

(** Without a search text, tags or a publication flag every post
    matches. *)
Lemma server_no_search (req : Server.PostsRequest) :
  Server.search req = None \/ Server.search req = Some "" ->
  Server.wanted req = None ->
  Server.publishedParam req = None ->
  exists q, Server.buildQuery req = Some q
            /\ forall store, Server.find q store = store.
Proof.
  intros Hs Hw Hp. unfold Server.buildQuery.
  destruct Hs as [Hs | Hs]; rewrite Hs, Hw, Hp; cbn;
    (eexists; split; [reflexivity|]);
    intros store; unfold Server.find;
    (induction store as [|p store IH]; [reflexivity|]);
    cbn; unfold Server.find in IH; cbn in IH; now rewrite IH.
Qed.

(** C1.  The server hands the search text to [$regex] as a pattern: for
    the search text ["."] it returns a post whose title, content and
    excerpt hold no dot at all. *)
Theorem server_search_reads_a_pattern :
  Server.getPosts [Sample.dotless] (Sample.searchFor ".")
  = Some (Server.Json 200
            {| Server.posts := [Sample.dotless];
               Server.total := 1;
               Server.r_page := 1;
               Server.r_pageSize := 10;
               Server.totalPages := Fin 1 |})
  /\ ~ serverSearchHit "." Sample.dotless.
Proof.
  split; [reflexivity|].
  unfold serverSearchHit.
  intros [H | [H | H]]; apply includes_lower_iff in H;
    vm_compute in H; discriminate.
Qed.

End SearchResults.

(** ** Ordering *)

Module OrderFacts.
Import JS Spec.

Section Sublists.
Context {A : Type} (R : A -> A -> Prop).

Lemma sorted_skipn (n : nat) (l : list A) :
  StronglySorted R l -> StronglySorted R (skipn n l).
Proof.
  revert l. induction n as [|n IH]; intros l H; [exact H|].
  destruct l as [|a l]; [exact H|].
  simpl. apply IH. now inversion H.
Qed.

Lemma sorted_firstn (n : nat) (l : list A) :
  StronglySorted R l -> StronglySorted R (firstn n l).
Proof.
  revert l. induction n as [|n IH]; intros l H; [constructor|].
  destruct l as [|a l]; [constructor|].
  inversion H as [|a' l' Hl Ha]; subst. simpl. constructor.
  - now apply IH.
  - rewrite Forall_forall in *. intros x Hx. apply Ha.
    rewrite <- (firstn_skipn n l). apply in_or_app. now left.
Qed.

Lemma sorted_filter (f : A -> bool) (l : list A) :
  StronglySorted R l -> StronglySorted R (List.filter f l).
Proof.
  induction 1 as [|a l Hl IH Ha]; simpl; [constructor|].
  destruct (f a); [|exact IH].
  constructor; [exact IH|].
  rewrite Forall_forall in *. intros x Hx.
  apply Ha. now apply filter_In in Hx.
Qed.

Lemma sorted_slice (l : list A) (start stop : Z) :
  StronglySorted R l -> StronglySorted R (slice l start stop).
Proof. intros H. unfold slice. now apply sorted_firstn, sorted_skipn. Qed.

Lemma sorted_nth (l : list A) :
  StronglySorted R l ->
  forall (i j : nat) (p q : A),
    (i < j)%nat -> nth_error l i = Some p -> nth_error l j = Some q -> R p q.
Proof.
  induction 1 as [|a l Hl IH Ha]; intros i j p q Hij Hi Hj.
  - destruct i; discriminate.
  - destruct j as [|j]; [lia|]. simpl in Hj.
    destruct i as [|i]; simpl in Hi.
    + inversion Hi; subst. rewrite Forall_forall in Ha.
      apply Ha. now apply nth_error_In with j.
    + apply (IH i j); [lia | assumption | assumption].
Qed.

End Sublists.

(** The comparison of the sort agrees with the order of the
    specification. *)
Lemma precedes_iff (p q : Server.Post) :
  Server.precedes p q = true <-> mayPrecede (serverKey p) (serverKey q).
Proof.
  unfold Server.precedes, Server.compareKey, Server.compareDate,
    mayPrecede, serverKey, earlier. cbn [fst snd].
  destruct (Server.published_at p) as [x|], (Server.published_at q) as [y|];
    try destruct (Z.compare_spec x y);
    destruct (Z.compare_spec (Server.created_at p) (Server.created_at q));
    split; intros Hyp; try reflexivity; try discriminate;
    try (destruct Hyp as [Hyp | [H1 H2]]; try inversion H1; try lia; try tauto);
    try (left; lia); try (left; exact I); try (right; split; [congruence | lia]).
Qed.

Lemma precedes_total (p q : Server.Post) :
  Server.precedes p q = false -> Server.precedes q p = true.
Proof.
  unfold Server.precedes, Server.compareKey, Server.compareDate.
  destruct (Server.published_at p) as [x|], (Server.published_at q) as [y|];
    try (rewrite (Z.compare_antisym x y); destruct (x ?= y)%Z; cbn);
    try (rewrite (Z.compare_antisym (Server.created_at p) (Server.created_at q));
         destruct (Server.created_at p ?= Server.created_at q)%Z; cbn);
    congruence.
Qed.

Lemma precedes_trans (p q r : Server.Post) :
  Server.precedes p q = true -> Server.precedes q r = true ->
  Server.precedes p r = true.
Proof.
  rewrite !precedes_iff. unfold mayPrecede, serverKey, earlier. cbn [fst snd].
  destruct (Server.published_at p) as [x|], (Server.published_at q) as [y|],
    (Server.published_at r) as [z|];
    intros [H1 | [H1 H1']] [H2 | [H2 H2']];
    try contradiction; try discriminate;
    try (inversion H1; subst); try (inversion H2; subst);
    try (left; lia); try (left; exact I);
    try (right; split; [reflexivity | lia]).
Qed.

Lemma insertSorted_Forall (P : Server.Post -> Prop) (p : Server.Post)
  (l : list Server.Post) :
  P p -> Forall P l -> Forall P (Server.insertSorted p l).
Proof.
  intros Hp. induction 1 as [|q l Hq Hl IH]; simpl.
  - now constructor.
  - destruct (Server.precedes p q); repeat constructor; assumption.
Qed.

Lemma insertSorted_inOrder (p : Server.Post) (l : list Server.Post) :
  inOrder l -> inOrder (Server.insertSorted p l).
Proof.
  induction 1 as [|q l Hl IH Hq]; simpl.
  - repeat constructor.
  - destruct (Server.precedes p q) eqn:Hpq.
    + constructor; [now constructor|].
      constructor; [exact Hpq|].
      rewrite Forall_forall in *. intros x Hx.
      apply (precedes_trans p q x Hpq). now apply Hq.
    + constructor; [exact IH|].
      apply insertSorted_Forall; [now apply precedes_total | exact Hq].
Qed.

Lemma sort_inOrder (l : list Server.Post) : inOrder (Server.sort l).
Proof.
  unfold Server.sort. induction l as [|p l IH]; simpl.
  - constructor.
  - now apply insertSorted_inOrder.
Qed.

Lemma inOrder_sortedBy (l : list Server.Post) :
  inOrder l -> sortedBy serverKey l.
Proof.
  unfold inOrder, sortedBy. induction 1 as [|p l Hl IH Hp]; constructor.
  - exact IH.
  - rewrite Forall_forall in *. intros x Hx. apply precedes_iff. now apply Hp.
Qed.

Lemma limit_inOrder (n : Z) (l : list Server.Post) :
  inOrder l -> inOrder (Server.limit n l).
Proof.
  intros H. unfold Server.limit.
  destruct (n =? 0)%Z; [exact H|].
  destruct (n <? 0)%Z; now apply sorted_firstn.
Qed.

(** The page that [GET /api/posts] returns is in the order of the sort. *)
Lemma pageOf_inOrder (total : Z) (found : list Server.Post)
  (req : Server.PostsRequest) (status : Z) (r : Server.PostsResponse) :
  Server.pageOf total found req = Server.Json status r ->
  inOrder (Server.posts r).
Proof.
  unfold Server.pageOf, Server.skip.
  destruct ((Server.page req - 1) * Server.pageSize req <? 0)%Z;
    [discriminate|].
  intros H. inversion H; subst. cbn [Server.posts].
  apply limit_inOrder, sorted_skipn, sort_inOrder.
Qed.

Lemma sortedBy_unpublishedLast {A : Type} (key : A -> SortKey) (l : list A) :
  sortedBy key l -> unpublishedLast key l.
Proof.
  intros H i j p q Hij Hi Hj Hnone.
  pose proof (sorted_nth _ l H i j p q Hij Hi Hj) as Hpq.
  unfold mayPrecede, earlier in Hpq. rewrite Hnone in Hpq.
  destruct Hpq as [Hpq | [Hpq _]]; [|now symmetry].
  destruct (fst (key q)); [contradiction | reflexivity].
Qed.

(** The fixture is written in the order of the sort. *)
Lemma mockPosts_sorted : sortedBy clientKey BlogAPI.mockPosts.
Proof.
  unfold sortedBy, BlogAPI.mockPosts.
  repeat (constructor; [|try (repeat constructor; left; vm_compute; reflexivity)]).
  constructor.
Qed.

Lemma mockQuery_sorted (page pageSize : Z) (search : option string)
  (wanted : option (list string)) :
  sortedBy clientKey (BlogAPI.posts (BlogAPI.mockQuery page pageSize search wanted)).
Proof.
  unfold BlogAPI.mockQuery. cbn [BlogAPI.posts]. apply sorted_slice.
  assert (Hs : sortedBy clientKey (BlogAPI.applySearch search BlogAPI.mockPosts)).
  { unfold BlogAPI.applySearch. destruct search as [s|]; [|apply mockPosts_sorted].
    destruct (JSString.truthy s);
      [apply sorted_filter|]; apply mockPosts_sorted. }
  unfold BlogAPI.applyTags. destruct wanted as [ts|]; [|exact Hs].
  destruct (0 <? List.length ts)%nat; [now apply sorted_filter | exact Hs].
Qed.

(** C2.  Every page the server returns, whatever documents the filter
    selected, is sorted by [published_at] descending with [created_at]
    descending as tie-break, posts without [published_at] after all the
    others; so is every page the fixture fallback returns; and three posts
    published on day 1, day 3 and day 2 come back as day 3, day 2, day 1. *)
Theorem posts_sorted_by_publication
  (total : Z) (found : list Server.Post) (req : Server.PostsRequest)
  (status : Z) (r : Server.PostsResponse)
  (page pageSize : Z) (search : option string) (wanted : option (list string)) :
  Server.pageOf total found req = Server.Json status r ->
  sortedBy serverKey (Server.posts r)
  /\ unpublishedLast serverKey (Server.posts r)
  /\ sortedBy clientKey
       (BlogAPI.posts (BlogAPI.mockQuery page pageSize search wanted))
  /\ unpublishedLast clientKey
       (BlogAPI.posts (BlogAPI.mockQuery page pageSize search wanted))
  /\ Server.getPosts Sample.threeDays Sample.plainRequest
     = Some (Server.Json 200
               {| Server.posts := [Sample.second; Sample.third; Sample.first];
                  Server.total := 3;
                  Server.r_page := 1;
                  Server.r_pageSize := 10;
                  Server.totalPages := Fin 1 |})
  /\ Server.getPosts Sample.withDraft Sample.plainRequest
     = Some (Server.Json 200
               {| Server.posts :=
                    [Sample.second; Sample.third; Sample.first; Sample.draft];
                  Server.total := 4;
                  Server.r_page := 1;
                  Server.r_pageSize := 10;
                  Server.totalPages := Fin 1 |}).
Proof.
  intros H.
  pose proof (inOrder_sortedBy _ (pageOf_inOrder _ _ _ _ _ H)) as Hs.
  pose proof (mockQuery_sorted page pageSize search wanted) as Hc.
  repeat split; try assumption; try reflexivity;
    now apply sortedBy_unpublishedLast.
Qed.

(** The theorem at the sample store with a draft. *)
Lemma posts_sorted_by_publication_witness :
  sortedBy serverKey [Sample.second; Sample.third; Sample.first; Sample.draft]
  /\ unpublishedLast serverKey
       [Sample.second; Sample.third; Sample.first; Sample.draft].
Proof.
  pose proof (posts_sorted_by_publication 4 Sample.withDraft
                Sample.plainRequest 200 _ 1 10 None None eq_refl)
    as [H1 [H2 _]].
  split; [exact H1 | exact H2].
Defined.

End OrderFacts.

(** ** Pagination *)

Module PagingFacts.
Import JS Spec.

(** For a positive divisor [Math.ceil(a / b)] is the quotient rounded up,
    and it is zero exactly when [a] is. *)
Lemma ceilDiv_positive (a b : Z) :
  (0 <= a)%Z -> (1 <= b)%Z ->
  exists n, ceilDiv a b = Fin n /\ isCeiling n a b /\ (n = 0%Z <-> a = 0%Z).
Proof.
  intros Ha Hb. unfold ceilDiv, isCeiling.
  assert (Hz : (b =? 0)%Z = false) by (apply Z.eqb_neq; lia).
  rewrite Hz. exists (- (- a / b))%Z. split; [reflexivity|].
  pose proof (Z.div_mod (- a) b ltac:(lia)) as Hdm.
  pose proof (Z.mod_pos_bound (- a) b ltac:(lia)) as Hr.
  repeat split; nia.
Qed.

(** What a reply of [GET /api/posts] with a body holds. *)
Lemma pageOf_fields (total : Z) (found : list Server.Post)
  (req : Server.PostsRequest) (status : Z) (r : Server.PostsResponse) :
  Server.pageOf total found req = Server.Json status r ->
  status = 200%Z
  /\ Server.total r = total
  /\ Server.totalPages r = ceilDiv (Server.total r) (Server.pageSize req)
  /\ Server.r_page r = Server.page req
  /\ Server.r_pageSize r = Server.pageSize req
  /\ (0 <= (Server.page req - 1) * Server.pageSize req)%Z.
Proof.
  unfold Server.pageOf, Server.skip.
  destruct ((Server.page req - 1) * Server.pageSize req <? 0)%Z eqn:Hneg;
    [discriminate|].
  intros H. inversion H; subst. cbn.
  apply Z.ltb_ge in Hneg.
  repeat split; try reflexivity; assumption.
Qed.


(** C3.  With a page size of at least one, [totalPages] is
    [total / pageSize] rounded up, and it is zero exactly when [total] is:
    in the replies of the server, [total] being a count, and in those of
    the fixture fallback. *)
Theorem totalPages_is_ceiling
  (total : Z) (found : list Server.Post) (req : Server.PostsRequest)
  (status : Z) (r : Server.PostsResponse)
  (page pageSize : Z) (search : option string) (wanted : option (list string)) :
  Server.pageOf total found req = Server.Json status r ->
  (0 <= total)%Z ->
  (1 <= Server.pageSize req)%Z ->
  (1 <= pageSize)%Z ->
  (exists n, Server.totalPages r = Fin n
             /\ isCeiling n (Server.total r) (Server.pageSize req)
             /\ (n = 0%Z <-> Server.total r = 0%Z))
  /\ (exists n,
        BlogAPI.totalPages (BlogAPI.mockQuery page pageSize search wanted) = Fin n
        /\ isCeiling n
             (BlogAPI.total (BlogAPI.mockQuery page pageSize search wanted))
             pageSize
        /\ (n = 0%Z
            <-> BlogAPI.total (BlogAPI.mockQuery page pageSize search wanted) = 0%Z)).
Proof.
  intros H Hn Hs Hc. split.
  - destruct (pageOf_fields _ _ _ _ _ H) as [_ [Ht [Htp _]]].
    rewrite Htp. apply ceilDiv_positive; [rewrite Ht; exact Hn | exact Hs].
  - unfold BlogAPI.mockQuery. cbn [BlogAPI.totalPages BlogAPI.total].
    apply ceilDiv_positive; lia.
Qed.

Lemma totalPages_is_ceiling_witness :
  (exists n, Fin 1 = Fin n /\ isCeiling n 3 10 /\ (n = 0%Z <-> 3%Z = 0%Z))
  /\ (exists n,
        BlogAPI.totalPages (BlogAPI.mockQuery 2 2 None None) = Fin n
        /\ isCeiling n (BlogAPI.total (BlogAPI.mockQuery 2 2 None None)) 2
        /\ (n = 0%Z <-> BlogAPI.total (BlogAPI.mockQuery 2 2 None None) = 0%Z)).
Proof.
  apply (totalPages_is_ceiling 3 Sample.threeDays Sample.plainRequest 200
           {| Server.posts := [Sample.second; Sample.third; Sample.first];
              Server.total := 3; Server.r_page := 1; Server.r_pageSize := 10;
              Server.totalPages := Fin 1 |}
           2 2 None None).
  - reflexivity.
  - lia.
  - simpl. lia.
  - lia.
Defined.

(** Against C3 as stated, without that bound.  With [pageSize = 0] and no
    matching post [total] is zero and [totalPages] is NaN; with a negative
    [pageSize] and three matching posts [totalPages] is zero. *)
Lemma totalPages_of_non_positive_pageSize :
  (BlogAPI.total (BlogAPI.mockQuery 1 0 (Some "zzz") None) = 0%Z
   /\ BlogAPI.totalPages (BlogAPI.mockQuery 1 0 (Some "zzz") None) = NaN)
  /\ (BlogAPI.total (BlogAPI.mockQuery 1 (-10) None None) = 3%Z
      /\ BlogAPI.totalPages (BlogAPI.mockQuery 1 (-10) None None) = Fin 0)
  /\ Server.getPosts [] (Sample.sized 1 0)
     = Some (Server.Json 200
               {| Server.posts := []; Server.total := 0; Server.r_page := 1;
                  Server.r_pageSize := 0; Server.totalPages := NaN |}).
Proof. repeat split; reflexivity. Qed.

(** C4.  Neither engine checks [page] or [pageSize].  The fixture fallback
    always answers, with the [page] and [pageSize] it was given.  The server
    answers with the [page] and [pageSize] it was given unless the offset
    [(page - 1) * pageSize] is negative, which the database refuses and the
    handler reports as status 500. *)
Theorem paging_is_not_validated
  (page pageSize : Z) (search : option string) (wanted : option (list string))
  (total : Z) (found : list Server.Post) (req : Server.PostsRequest) :
  (exists r,
     BlogAPI.getMockPosts
       (Some {| BlogAPI.q_page := Some page; BlogAPI.q_pageSize := Some pageSize;
                BlogAPI.q_search := search; BlogAPI.q_tags := wanted |}) = Ok r
     /\ BlogAPI.page r = page /\ BlogAPI.pageSize r = pageSize)
  /\ if ((Server.page req - 1) * Server.pageSize req <? 0)%Z
     then Server.pageOf total found req
          = Server.Failure 500 "Failed to fetch posts"
     else exists r, Server.pageOf total found req = Server.Json 200 r
                    /\ Server.r_page r = Server.page req
                    /\ Server.r_pageSize r = Server.pageSize req.
Proof.
  split.
  - eexists. split; [reflexivity|]. split; reflexivity.
  - unfold Server.pageOf, Server.skip.
    destruct ((Server.page req - 1) * Server.pageSize req <? 0)%Z;
      [reflexivity|].
    eexists. split; [reflexivity|]. split; reflexivity.
Qed.

(** Against C4 as stated: asked for page [0] with page size [0], the
    fixture fallback neither rejects the request nor replaces the values;
    asked for page size [0], the server returns every post. *)
Lemma non_positive_paging_goes_through :
  BlogAPI.getMockPosts (Some (Sample.clientQuery 0 0 None))
  = Ok {| BlogAPI.posts := []; BlogAPI.total := 3; BlogAPI.page := 0;
          BlogAPI.pageSize := 0; BlogAPI.totalPages := PosInf |}
  /\ BlogAPI.getMockPosts (Some (Sample.clientQuery 0 10 None))
     = Ok {| BlogAPI.posts := []; BlogAPI.total := 3; BlogAPI.page := 0;
             BlogAPI.pageSize := 10; BlogAPI.totalPages := Fin 1 |}
  /\ Server.getPosts Sample.threeDays (Sample.sized 1 0)
     = Some (Server.Json 200
               {| Server.posts := [Sample.second; Sample.third; Sample.first];
                  Server.total := 3; Server.r_page := 1;
                  Server.r_pageSize := 0; Server.totalPages := PosInf |}).
Proof. repeat split; reflexivity. Qed.

End PagingFacts.

(** ** The post store *)

Module StoreFacts.
Import JS Server.

Lemma applySet_id (d : UpdateData) (p : Post) : _id (applySet d p) = _id p.
Proof. reflexivity. Qed.

(** [$set] never writes [null] into [published_at]. *)
Lemma applySet_keeps_published_at (d : UpdateData) (p : Post) (t : Z) :
  published_at p = Some t -> exists t', published_at (applySet d p) = Some t'.
Proof.
  intros H. unfold applySet. cbn [published_at].
  destruct (u_published_at d) as [t'|]; eauto.
Qed.

(** An update that publishes stamps [published_at] with the second clock
    reading, whatever the stored document holds. *)
Lemma publish_always_stamps (body : Body) (now1 now2 : Z) (p : Post) :
  b_published body = Some true ->
  published_at (applySet (buildUpdate body now1 now2) p) = Some now2.
Proof.
  intros H. unfold buildUpdate. rewrite H.
  destruct (truthyField (b_title body)); reflexivity.
Qed.

Lemma setFirst_nth (i : string) (d : UpdateData) (store : Store) (k : nat)
  (p : Post) :
  nth_error store k = Some p ->
  exists p', nth_error (setFirst i d store) k = Some p'
             /\ (p' = p \/ p' = applySet d p).
Proof.
  revert k. induction store as [|q store IH]; intros k H.
  - destruct k; discriminate.
  - simpl. destruct (String.eqb (_id q) i).
    + destruct k as [|k]; simpl in *.
      * inversion H; subst. eauto.
      * eauto.
    + destruct k as [|k]; simpl in *.
      * inversion H; subst. eauto.
      * now apply IH.
Qed.

Lemma afterUpdate_cases (store : Store) (r : UpdateRequest) :
  afterUpdate store r = store
  \/ exists i d, afterUpdate store r = setFirst i d store.
Proof.
  unfold afterUpdate, updatePost.
  destruct (negb (isValid (target r))); [now left|].
  unfold updateOne.
  destruct (findOne (objectId (target r)) store); [|now left].
  destruct (u_slug (buildUpdate (changes r) (clock1 r) (clock2 r))) as [s|].
  - destruct (existsb _ store); [now left|].
    right. do 2 eexists. reflexivity.
  - right. do 2 eexists. reflexivity.
Qed.

Lemma afterUpdate_keeps_published_at (store : Store) (r : UpdateRequest)
  (k : nat) (p : Post) (t : Z) :
  nth_error store k = Some p -> published_at p = Some t ->
  exists p' t', nth_error (afterUpdate store r) k = Some p'
                /\ _id p' = _id p /\ published_at p' = Some t'.
Proof.
  intros Hk Ht.
  destruct (afterUpdate_cases store r) as [E | [i [d E]]]; rewrite E.
  - exists p, t. auto.
  - destruct (setFirst_nth i d store k p Hk) as [p' [Hp' [-> | ->]]].
    + exists p, t. auto.
    + destruct (applySet_keeps_published_at d p t Ht) as [t' Ht'].
      exists (applySet d p), t'. auto.
Qed.

(** C6.  Through any sequence of updates a post that has a [published_at]
    keeps one: no update, an unpublishing one included, sets it back to
    null. *)
Theorem published_at_never_cleared
  (rs : list UpdateRequest) (store : Store) (k : nat) (p : Post) (t : Z) :
  nth_error store k = Some p ->
  published_at p = Some t ->
  exists p' t', nth_error (afterUpdates store rs) k = Some p'
                /\ _id p' = _id p /\ published_at p' = Some t'.
Proof.
  revert store p t. unfold afterUpdates.
  induction rs as [|r rs IH]; intros store p t Hk Ht; simpl.
  - exists p, t. auto.
  - destruct (afterUpdate_keeps_published_at store r k p t Hk Ht)
      as [p1 [t1 [Hk1 [Hid1 Ht1]]]].
    destruct (IH _ p1 t1 Hk1 Ht1) as [p' [t' [Hk' [Hid' Ht']]]].
    exists p', t'. repeat split; [assumption | congruence | assumption].
Qed.

(** Unpublishing the sample post published on day 3. *)
Lemma published_at_never_cleared_witness :
  exists p' t',
    nth_error
      (afterUpdates Sample.threeDays
         [ {| target := Sample.idB; changes := Sample.unpublish;
              clock1 := Sample.day 9; clock2 := Sample.day 9 |} ]) 1
    = Some p'
    /\ _id p' = Sample.idB /\ published_at p' = Some t'.
Proof.
  apply (published_at_never_cleared _ Sample.threeDays 1 Sample.second
           (Sample.day 3)); reflexivity.
Defined.

(** The other two operations leave the posts that stay as they are. *)
Lemma createPost_keeps_posts (store : Store) (body : Body) (now : Z)
  (newId : string) (p : Post) :
  In p store -> In p (fst (createPost store body now newId)).
Proof.
  intros H. unfold createPost, insertOne.
  destruct (negb (truthyField (b_title body))
            || negb (truthyField (b_content body))); [exact H|].
  match goal with |- context [if ?c then Throw _ else _] => destruct c end;
    [exact H|].
  cbn. apply in_or_app. now left.
Qed.

Lemma removeFirst_subset (i : string) (store : Store) (p : Post) :
  In p (removeFirst i store) -> In p store.
Proof.
  induction store as [|q store IH]; simpl; [tauto|].
  destruct (String.eqb (_id q) i); simpl; tauto.
Qed.

Lemma deletePost_keeps_posts (store : Store) (i : string) (p : Post) :
  In p (fst (deletePost store i)) -> In p store.
Proof.
  unfold deletePost. destruct (negb (isValid i)); [tauto|].
  destruct (findOne (objectId i) store); [|tauto].
  apply removeFirst_subset.
Qed.

(** C5.  The post published on day 1 is published again on day 9: the
    update overwrites its [published_at] with the time of the update. *)
Theorem republishing_restamps :
  published_at Sample.first = Some (Sample.day 1)
  /\ updatePost [Sample.first] Sample.idA Sample.publish
       (Sample.day 9) (Sample.day 9 + 1)
     = ([ {| _id := Sample.idA; title := "First"; slug := "first";
             content := "alpha"; excerpt := ""; tags := [];
             featured_image := ""; published := true;
             published_at := Some (Sample.day 9 + 1)%Z;
             created_at := Sample.day 1;
             updated_at := Sample.day 9 |} ],
        Json 200
          (Some {| _id := Sample.idA; title := "First"; slug := "first";
                   content := "alpha"; excerpt := ""; tags := [];
                   featured_image := ""; published := true;
                   published_at := Some (Sample.day 9 + 1)%Z;
                   created_at := Sample.day 1;
                   updated_at := Sample.day 9 |})).
Proof. split; reflexivity. Qed.

(** C10.  A post that was created has a [published_at] exactly when it is
    published, and [created_at], [updated_at] and, when it is published,
    [published_at] all hold the one clock reading of the creation. *)
Theorem created_post_timestamps
  (store store' : Store) (body : Body) (now : Z) (newId : string)
  (status : Z) (p : Post) :
  createPost store body now newId = (store', Json status p) ->
  (published_at p <> None <-> published p = true)
  /\ created_at p = now
  /\ updated_at p = now
  /\ (published p = true -> published_at p = Some now)
  /\ status = 201%Z
  /\ In p store'.
Proof.
  unfold createPost, insertOne.
  destruct (negb (truthyField (b_title body))
            || negb (truthyField (b_content body))); [discriminate|].
  match goal with |- context [if ?c then Throw _ else _] => destruct c end;
    [discriminate|].
  intros H. inversion H; subst. cbn.
  repeat split.
  - destruct (default false (b_published body)); congruence.
  - destruct (default false (b_published body)); congruence.
  - destruct (default false (b_published body)); congruence.
  - apply in_or_app. right. now left.
Qed.

Lemma created_post_timestamps_witness :
  exists p, snd (createPost Sample.threeDays (Sample.newPost true)
                   (Sample.day 7) Sample.idD) = Json 201 p
            /\ published_at p = Some (Sample.day 7)
            /\ created_at p = Sample.day 7
            /\ updated_at p = Sample.day 7.
Proof.
  eexists. split; [reflexivity|].
  destruct (created_post_timestamps Sample.threeDays _ (Sample.newPost true)
              (Sample.day 7) Sample.idD 201 _ eq_refl)
    as [_ [Hc [Hu [Hp _]]]].
  split; [apply Hp; reflexivity | split; [exact Hc | exact Hu]].
Defined.

End StoreFacts.

(** ** The client-side proxy *)

Module ProxyFacts.
Import JS BlogAPI.

(** C9.  When the request fails or the response is not a 2xx one,
    [getPosts] returns what the fixture gives for the same page, page size,
    search text and tags; [getPostBySlug] answers a 404 response with [null]
    without consulting the fixture, and hands every other failure to
    [getMockPostBySlug]; [getAllPosts] hands its failures to
    [getMockAllPosts]. *)
Theorem reads_fall_back
  (arg : option BlogPostQuery) (reply : FetchOutcome BlogPostsResponse)
  (wanted : string) (slugReply : FetchOutcome (option BlogPost)) :
  failed reply = true ->
  failed slugReply = true ->
  getPosts arg reply
  = Ok (mockQuery (default 1%Z (q_page (default emptyQuery arg)))
          (default 10%Z (q_pageSize (default emptyQuery arg)))
          (q_search (default emptyQuery arg))
          (q_tags (default emptyQuery arg)))
  /\ getPostBySlug wanted slugReply
     = (if notFound slugReply then Ok None else getMockPostBySlug wanted)
  /\ getAllPosts reply = getMockAllPosts.
Proof.
  intros H Hs. repeat split.
  - unfold getPosts. destruct reply as [|status body]; [reflexivity|].
    simpl in H. now rewrite H.
  - unfold getPostBySlug, notFound.
    destruct slugReply as [|status body]; [reflexivity|].
    simpl in Hs. destruct (status =? 404)%Z; [reflexivity|]. now rewrite Hs.
  - unfold getAllPosts. destruct reply as [|status body]; [reflexivity|].
    simpl in H. now rewrite H.
Qed.

Lemma reads_fall_back_witness :
  getPosts (Some (Sample.clientQuery 1 2 (Some "database"))) (Response 503 None)
  = Ok (mockQuery 1 2 (Some "database") None)
  /\ getPostBySlug "art-of-database-design" (Response 404 None) = Ok None.
Proof.
  destruct (reads_fall_back (Some (Sample.clientQuery 1 2 (Some "database")))
              (Response 503 None) "art-of-database-design" (Response 404 None)
              eq_refl eq_refl) as [H1 [H2 _]].
  split; [exact H1 | exact H2].
Defined.

(** Against C9 as stated, for [getPostBySlug]: on a 404 response it returns
    [null] for a slug that the fixture holds. *)
Lemma not_found_is_not_a_fallback :
  getPostBySlug "art-of-database-design" (Response 404 None) = Ok None
  /\ failed (Response 404 (@None (option BlogPost))) = true
  /\ exists post, In post mockPosts /\ slug post = "art-of-database-design".
Proof.
  split; [reflexivity | split; [reflexivity|]].
  eexists. split; [right; left; reflexivity | reflexivity].
Qed.

(** [getMockAllPosts] calls [getMockPosts] without an argument, so the
    other fallbacks end in the exception of the destructuring. *)
Lemma fallback_without_argument_throws (wanted : string) :
  getAllPosts NetworkError
  = Throw (TypeError "Cannot destructure property 'page' of 'undefined'")
  /\ getPostBySlug wanted NetworkError
     = Throw (TypeError "Cannot destructure property 'page' of 'undefined'").
Proof. split; reflexivity. Qed.

End ProxyFacts.

(* ===================================================================== *)
(** * Further properties of the code *)
(* ===================================================================== *)

(** ** Slugs *)

Module SlugShape.
Import JSString Slug StringFacts.

Lemma isHyphen_eq (c : ascii) : isHyphen c = true -> c = "-"%char.
Proof. unfold isHyphen. apply Ascii.eqb_eq. Qed.

Lemma not_hyphen_neq (c : ascii) : isHyphen c = false -> c <> "-"%char.
Proof. unfold isHyphen. apply Ascii.eqb_neq. Qed.

Lemma prefix_double_hyphen (c : ascii) (s : string) :
  prefix "--" (String c s) = true -> c = "-"%char /\ first s = Some "-"%char.
Proof.
  intros H. apply SearchFacts.prefix_iff in H as [rest H].
  inversion H; subst. split; reflexivity.
Qed.

(** After the hyphens are squeezed no two of them are adjacent; and when
    the text before ended in a hyphen, the rest does not start with
    one. *)
Lemma squeeze_no_double (s : string) :
  includes (replaceRunsFrom isHyphen false s) "--" = false
  /\ includes (replaceRunsFrom isHyphen true s) "--" = false
  /\ first (replaceRunsFrom isHyphen true s) <> Some "-"%char.
Proof.
  induction s as [|c s [IH1 [IH2 IH3]]]; [repeat split; discriminate|].
  cbn [replaceRunsFrom]. destruct (isHyphen c) eqn:Hc.
  - repeat split; try assumption.
    cbn [includes]. rewrite IH2, orb_false_r.
    destruct (prefix "--" (String "-" (replaceRunsFrom isHyphen true s)))
      eqn:Hp; [|reflexivity].
    apply prefix_double_hyphen in Hp as [_ Hp]. contradiction.
  - pose proof (not_hyphen_neq c Hc) as Hne.
    assert (Hp : prefix "--" (String c (replaceRunsFrom isHyphen false s)) = false).
    { destruct (prefix "--" (String c (replaceRunsFrom isHyphen false s)))
        eqn:Hp; [|reflexivity].
      apply prefix_double_hyphen in Hp as [Hp _]. contradiction. }
    repeat split.
    + cbn [includes]. now rewrite Hp, IH1.
    + cbn [includes]. now rewrite Hp, IH1.
    + cbn [first]. congruence.
Qed.

Lemma filter_length (p : ascii -> bool) (s : string) :
  (String.length (filter p s) <= String.length s)%nat.
Proof.
  induction s as [|c s IH]; simpl; [lia|]. destruct (p c); simpl; lia.
Qed.

Lemma map_length (f : ascii -> ascii) (s : string) :
  String.length (map f s) = String.length s.
Proof. induction s as [|c s IH]; simpl; [reflexivity | now rewrite IH]. Qed.

Lemma replaceRunsFrom_length (p : ascii -> bool) (b : bool) (s : string) :
  (String.length (replaceRunsFrom p b s) <= String.length s)%nat.
Proof.
  revert b. induction s as [|c s IH]; intros b; simpl; [lia|].
  destruct (p c); [destruct b|]; simpl;
    try (pose proof (IH true)); try (pose proof (IH false)); lia.
Qed.

(** X1.  A slug holds only lower-case letters, digits and hyphens, never
    two hyphens in a row, and is never longer than the title. *)
Theorem generateSlug_shape (title : string) :
  all cleanChar (generateSlug title) = true
  /\ includes (generateSlug title) "--" = false
  /\ (String.length (generateSlug title) <= String.length title)%nat.
Proof.
  split; [apply generateSlug_clean|]. rewrite generateSlug_without_trim.
  unfold replaceRuns. split; [apply squeeze_no_double|].
  pose proof (replaceRunsFrom_length isHyphen false
                (replaceRunsFrom isSpace false
                   (filter slugChar (toLowerCase title)))).
  pose proof (replaceRunsFrom_length isSpace false
                (filter slugChar (toLowerCase title))).
  pose proof (filter_length slugChar (toLowerCase title)).
  pose proof (map_length toLowerChar title). unfold toLowerCase in *. lia.
Qed.





(** Titles that differ only in the case of their letters get the same
    slug. *)
Lemma generateSlug_ignores_case (t1 t2 : string) :
  toLowerCase t1 = toLowerCase t2 -> generateSlug t1 = generateSlug t2.
Proof. intros H. unfold generateSlug. now rewrite H. Qed.

End SlugShape.

(** ** Pages of a list *)

Module PageFacts.
Import JS Notions.

Section Chunks.
Context {A : Type}.

Lemma firstn_plus (a b : nat) (l : list A) :
  firstn (a + b) l = (firstn a l ++ firstn b (skipn a l))%list.
Proof.
  revert l. induction a as [|a IH]; intros l; [reflexivity|].
  destruct l as [|x l]; simpl.
  - now destruct b.
  - now rewrite IH.
Qed.

(** Consecutive chunks of [size] elements, put together, are a prefix of
    the list. *)
Lemma chunks_concat (size n : nat) (l : list A) :
  List.concat (List.map (fun k => firstn size (skipn (k * size) l)) (seq 0 n))
  = firstn (n * size) l.
Proof.
  induction n as [|n IH]; [reflexivity|].
  rewrite seq_S, List.map_app, List.concat_app, IH. simpl.
  rewrite app_nil_r, <- firstn_plus. f_equal. lia.
Qed.

Lemma chunks_cover (size n : nat) (l : list A) :
  (List.length l <= n * size)%nat ->
  List.concat (List.map (fun k => firstn size (skipn (k * size) l)) (seq 0 n)) = l.
Proof. intros H. rewrite chunks_concat. now apply firstn_all2. Qed.

(** [slice] with bounds inside the natural numbers is [firstn] after
    [skipn]. *)
Lemma slice_chunk (l : list A) (k size : nat) :
  slice l (Z.of_nat k) (Z.of_nat k + Z.of_nat size)
  = firstn size (skipn k l).
Proof.
  unfold slice, relativeIndex.
  assert (H1 : (Z.of_nat k <? 0)%Z = false) by (apply Z.ltb_ge; lia).
  assert (H2 : (Z.of_nat k + Z.of_nat size <? 0)%Z = false)
    by (apply Z.ltb_ge; lia).
  rewrite H1, H2.
  destruct (Nat.le_gt_cases (List.length l) k) as [Hk | Hk].
  - rewrite (Z.min_r (Z.of_nat k)) by lia.
    rewrite Z.min_r by lia. rewrite Z.sub_diag, Nat2Z.id. simpl.
    rewrite skipn_all2 by exact Hk. now destruct size.
  - rewrite (Z.min_l (Z.of_nat k)) by lia. rewrite Nat2Z.id.
    destruct (Nat.le_gt_cases (List.length l) (k + size)) as [Hs | Hs].
    + rewrite Z.min_r by lia.
      replace (Z.to_nat (Z.of_nat (List.length l) - Z.of_nat k))
        with (List.length (skipn k l)) by (rewrite length_skipn; lia).
      rewrite firstn_all. symmetry. apply firstn_all2.
      rewrite length_skipn. lia.
    + rewrite Z.min_l by lia. f_equal. lia.
Qed.



End Chunks.

Lemma insertSorted_perm (p : Server.Post) (l : list Server.Post) :
  Permutation (Server.insertSorted p l) (p :: l).
Proof.
  induction l as [|q l IH]; simpl; [reflexivity|].
  destruct (Server.precedes p q); [reflexivity|].
  rewrite IH. apply perm_swap.
Qed.

Lemma sort_perm (found : list Server.Post) :
  Permutation (Server.sort found) found.
Proof.
  unfold Server.sort. induction found as [|p l IH]; simpl; [reflexivity|].
  rewrite insertSorted_perm. now constructor.
Qed.

Lemma sort_length (found : list Server.Post) :
  List.length (Server.sort found) = List.length found.
Proof. apply Permutation_length, sort_perm. Qed.



(** A page of the server with a positive page number and page size. *)
Lemma pageOf_chunk (total : Z) (found : list Server.Post)
  (req : Server.PostsRequest) (k size : nat) :
  Server.page req = Z.of_nat (S k) ->
  Server.pageSize req = Z.of_nat (S size) ->
  Server.pageOf total found req
  = Server.Json 200
      {| Server.posts := firstn (S size) (skipn (k * S size) (Server.sort found));
         Server.total := total;
         Server.r_page := Server.page req;
         Server.r_pageSize := Server.pageSize req;
         Server.totalPages := ceilDiv total (Server.pageSize req) |}.
Proof.
  intros Hp Hs. unfold Server.pageOf, Server.skip, Server.limit.
  assert (Hoff : ((Server.page req - 1) * Server.pageSize req
                  = Z.of_nat (k * S size))%Z) by (rewrite Hp, Hs; lia).
  rewrite Hoff.
  assert (H0 : (Z.of_nat (k * S size) <? 0)%Z = false) by (apply Z.ltb_ge; lia).
  assert (H1 : (Server.pageSize req =? 0)%Z = false) by (apply Z.eqb_neq; lia).
  assert (H2 : (Server.pageSize req <? 0)%Z = false) by (apply Z.ltb_ge; lia).
  rewrite H0, H1, H2, Nat2Z.id. rewrite Hs at 1. now rewrite Nat2Z.id.
Qed.



(** X5.  With a page size of at least one a page never holds more posts
    than the page size, and a page that starts at or after the last
    matching post is empty and still reports the total. *)
Theorem server_page_bounds (total : Z) (found : list Server.Post)
  (req : Server.PostsRequest) :
  (1 <= Server.page req)%Z ->
  (1 <= Server.pageSize req)%Z ->
  (Z.of_nat (List.length (items (Server.pageOf total found req)))
   <= Server.pageSize req)%Z
  /\ ((Z.of_nat (List.length found)
       <= (Server.page req - 1) * Server.pageSize req)%Z ->
      Server.pageOf total found req
      = Server.Json 200
          {| Server.posts := [];
             Server.total := total;
             Server.r_page := Server.page req;
             Server.r_pageSize := Server.pageSize req;
             Server.totalPages := ceilDiv total (Server.pageSize req) |}).
Proof.
  intros Hp Hs.
  destruct (Z.to_nat (Server.pageSize req)) as [|size] eqn:Hsize; [lia|].
  destruct (Z.to_nat (Server.page req)) as [|k] eqn:Hk; [lia|].
  rewrite (pageOf_chunk total found req k size) by lia.
  cbn [items Server.posts]. split.
  - rewrite length_firstn. lia.
  - intros Hlast. rewrite skipn_all2; [now destruct size|].
    rewrite sort_length. nia.
Qed.

Lemma server_page_bounds_witness :
  Server.pageOf 3 Sample.threeDays (Sample.sized 2 10)
  = Server.Json 200
      {| Server.posts := []; Server.total := 3; Server.r_page := 2;
         Server.r_pageSize := 10; Server.totalPages := Fin 1 |}.
Proof.
  refine (proj2 (server_page_bounds 3 Sample.threeDays (Sample.sized 2 10)
                   _ _) _); simpl; lia.
Defined.


End PageFacts.

(** ** The filters of the server *)

Module FilterFacts.
Import JS Notions.








End FilterFacts.

(** ** The post store, further *)

Module StoreMore.
Import JS Server Notions.

Lemma idTaken_iff (i : string) (store : Store) :
  idTaken i store = true <-> In i (List.map _id store).
Proof.
  unfold idTaken. rewrite existsb_exists, in_map_iff. split.
  - intros [p [Hp E]]. apply String.eqb_eq in E. now exists p.
  - intros [p [E Hp]]. exists p. split; [exact Hp | now apply String.eqb_eq].
Qed.

Lemma slugTaken_iff (s : string) (store : Store) :
  slugTaken s store = true <-> In s (List.map slug store).
Proof.
  unfold slugTaken. rewrite existsb_exists, in_map_iff. split.
  - intros [p [Hp E]]. apply String.eqb_eq in E. now exists p.
  - intros [p [E Hp]]. exists p. split; [exact Hp | now apply String.eqb_eq].
Qed.

Lemma not_true_false (b : bool) : b <> true -> b = false.
Proof. now destruct b. Qed.

(** What a create does to the store, by its reply. *)
Lemma createPost_store (store : Store) (body : Body) (now : Z) (newId : string) :
  match snd (createPost store body now newId) with
  | Failure _ _ => fst (createPost store body now newId) = store
  | Json _ p =>
      fst (createPost store body now newId) = (store ++ [p])%list
      /\ idTaken newId store = false
      /\ slugTaken (slug p) store = false
      /\ _id p = newId
      /\ b_title body = Some (title p)
      /\ title p <> EmptyString
      /\ slug p = Slug.generateSlug (title p)
  end.
Proof.
  unfold createPost, insertOne.
  destruct (truthyField (b_title body)) eqn:Ht; [|reflexivity].
  destruct (truthyField (b_content body)); [|reflexivity]. cbn.
  match goal with |- context [if ?c then Throw _ else _] =>
    destruct c eqn:Hc end; cbn; [reflexivity|].
  apply orb_false_iff in Hc as [Hid Hslug]. cbn in Hid, Hslug.
  destruct (b_title body) as [t|]; [|discriminate]. cbn in *.
  repeat split; try assumption.
  intros ->. discriminate.
Qed.

Lemma setFirst_ids (i : string) (d : UpdateData) (store : Store) :
  List.map _id (setFirst i d store) = List.map _id store.
Proof.
  induction store as [|p store IH]; simpl; [reflexivity|].
  destruct (String.eqb (_id p) i); simpl; [reflexivity | now rewrite IH].
Qed.

Lemma setFirst_length (i : string) (d : UpdateData) (store : Store) :
  List.length (setFirst i d store) = List.length store.
Proof.
  rewrite <- (length_map _id), setFirst_ids. apply length_map.
Qed.

Lemma setFirst_slugs (i : string) (d : UpdateData) (store : Store) (x : string) :
  In x (List.map slug (setFirst i d store)) ->
  In x (List.map slug store) \/ u_slug d = Some x.
Proof.
  induction store as [|p store IH]; simpl; [tauto|].
  destruct (String.eqb (_id p) i); simpl.
  - intros [H | H]; [|tauto].
    unfold default in H. destruct (u_slug d) as [s|]; [right; congruence | tauto].
  - intros [H | H]; [tauto|]. destruct (IH H); tauto.
Qed.

Lemma setFirst_unique_slugs (i : string) (d : UpdateData) (store : Store) :
  NoDup (List.map _id store) ->
  NoDup (List.map slug store) ->
  (forall s, u_slug d = Some s ->
             forall q, In q store -> _id q <> i -> slug q <> s) ->
  NoDup (List.map slug (setFirst i d store)).
Proof.
  induction store as [|p store IH]; simpl; intros Hid Hsl Hfree; [constructor|].
  inversion Hid as [|? ? Hnotin Hid']; subst.
  inversion Hsl as [|? ? Hsnotin Hsl']; subst.
  destruct (String.eqb (_id p) i) eqn:E; simpl.
  - apply String.eqb_eq in E. constructor; [|exact Hsl'].
    unfold default. destruct (u_slug d) as [s|] eqn:Hs; [|exact Hsnotin].
    intros Hin. apply in_map_iff in Hin as [q [Hq Hqin]].
    apply (Hfree s eq_refl q); [now right | | exact Hq].
    intros Heq. apply Hnotin. apply in_map_iff. exists q. split; congruence.
  - apply String.eqb_neq in E. constructor.
    + intros Hin. destruct (setFirst_slugs _ _ _ _ Hin) as [H | H];
        [contradiction|].
      apply (Hfree _ H p); [now left | exact E | reflexivity].
    + apply IH; [exact Hid' | exact Hsl' |].
      intros s Hs q Hq. apply (Hfree s Hs q). now right.
Qed.

(** What an update does to the store, by its reply. *)
Lemma updatePost_store (store : Store) (i : string) (body : Body)
  (now1 now2 : Z) :
  match snd (updatePost store i body now1 now2) with
  | Failure _ _ => fst (updatePost store i body now1 now2) = store
  | Json _ _ =>
      isValid i = true
      /\ fst (updatePost store i body now1 now2)
         = setFirst (objectId i) (buildUpdate body now1 now2) store
      /\ (exists p, findOne (objectId i) store = Some p)
      /\ (forall s, u_slug (buildUpdate body now1 now2) = Some s ->
                    forall q, In q store -> _id q <> objectId i -> slug q <> s)
  end.
Proof.
  unfold updatePost. destruct (isValid i); [|reflexivity]. cbn [negb].
  unfold updateOne. destruct (findOne (objectId i) store) as [p|] eqn:Hf;
    [|reflexivity].
  destruct (u_slug (buildUpdate body now1 now2)) as [s|] eqn:Hs.
  - match goal with |- context [if ?c then Throw _ else _] =>
      destruct c eqn:Hc end; cbn; [reflexivity|].
    repeat split; eauto.
    intros s' Hs' q Hq Hne Heq. inversion Hs'; subst s'.
    assert (Hex : existsb (fun p0 => String.eqb (slug p0) s
                                      && negb (String.eqb (_id p0) (objectId i)))
                    store = true).
    { apply existsb_exists. exists q. split; [exact Hq|].
      apply andb_true_iff. split; [now apply String.eqb_eq|].
      apply negb_true_iff. now apply String.eqb_neq. }
    congruence.
  - cbn. repeat split; eauto. discriminate.
Qed.

Lemma removeFirst_map_subset {B : Type} (f : Post -> B) (i : string)
  (store : Store) (x : B) :
  In x (List.map f (removeFirst i store)) -> In x (List.map f store).
Proof.
  induction store as [|p store IH]; simpl; [tauto|].
  destruct (String.eqb (_id p) i); simpl; tauto.
Qed.

Lemma removeFirst_NoDup {B : Type} (f : Post -> B) (i : string) (store : Store) :
  NoDup (List.map f store) -> NoDup (List.map f (removeFirst i store)).
Proof.
  induction store as [|p store IH]; simpl; intros H; [constructor|].
  inversion H as [|? ? Hnotin H']; subst.
  destruct (String.eqb (_id p) i); simpl; [exact H'|].
  constructor; [|now apply IH].
  intros Hin. apply Hnotin. now apply removeFirst_map_subset in Hin.
Qed.

(** What a delete does to the store, by its reply. *)
Lemma deletePost_store (store : Store) (i : string) :
  match snd (deletePost store i) with
  | Failure _ _ => fst (deletePost store i) = store
  | Json _ _ =>
      isValid i = true
      /\ fst (deletePost store i) = removeFirst (objectId i) store
      /\ exists p, findOne (objectId i) store = Some p
  end.
Proof.
  unfold deletePost. destruct (isValid i); [|reflexivity]. cbn [negb].
  destruct (findOne (objectId i) store) as [p|]; cbn; [|reflexivity].
  repeat split. now exists p.
Qed.

(** X8.  No two posts ever share an [_id] or a [slug]: a store with that
    property keeps it through every create, update and delete. *)
Theorem writes_keep_keys_unique (store : Store) (body : Body)
  (now1 now2 : Z) (i : string) :
  uniqueKeys store ->
  uniqueKeys (fst (createPost store body now1 i))
  /\ uniqueKeys (fst (updatePost store i body now1 now2))
  /\ uniqueKeys (fst (deletePost store i)).
Proof.
  intros [Hid Hsl]. split; [|split].
  - pose proof (createPost_store store body now1 i) as H.
    destruct (snd (createPost store body now1 i)) as [st p|st e];
      [|rewrite H; now split].
    destruct H as [-> [Hi [Hs [Hp _]]]].
    unfold uniqueKeys. rewrite !List.map_app. simpl. split.
    + apply Permutation_NoDup with (_id p :: List.map _id store);
        [apply Permutation_cons_append|].
      constructor; [|exact Hid]. rewrite Hp. intros Hin.
      apply idTaken_iff in Hin. congruence.
    + apply Permutation_NoDup with (slug p :: List.map slug store);
        [apply Permutation_cons_append|].
      constructor; [|exact Hsl]. intros Hin.
      apply slugTaken_iff in Hin. congruence.
  - pose proof (updatePost_store store i body now1 now2) as H.
    destruct (snd (updatePost store i body now1 now2)) as [st p|st e];
      [|rewrite H; now split].
    destruct H as [_ [-> [_ Hfree]]]. split.
    + now rewrite setFirst_ids.
    + now apply setFirst_unique_slugs.
  - pose proof (deletePost_store store i) as H.
    destruct (snd (deletePost store i)) as [st p|st e];
      [|rewrite H; now split].
    destruct H as [_ [-> _]]. split; now apply removeFirst_NoDup.
Qed.

Lemma writes_keep_keys_unique_witness :
  uniqueKeys (fst (createPost Sample.threeDays (Sample.newPost true)
                     (Sample.day 7) Sample.idD)).
Proof.
  refine (proj1 (writes_keep_keys_unique Sample.threeDays (Sample.newPost true)
                   (Sample.day 7) (Sample.day 7) Sample.idD _)).
  split; repeat constructor; simpl; intuition discriminate.
Defined.


Lemma buildUpdate_title (body : Body) (now1 now2 : Z) :
  (u_title (buildUpdate body now1 now2) = None
   /\ u_slug (buildUpdate body now1 now2) = None
   /\ truthyField (b_title body) = false)
  \/ exists t, t <> EmptyString
               /\ b_title body = Some t
               /\ u_title (buildUpdate body now1 now2) = Some t
               /\ u_slug (buildUpdate body now1 now2)
                  = Some (Slug.generateSlug t).
Proof.
  unfold buildUpdate.
  destruct (b_title body) as [t|] eqn:Ht; cbn.
  - destruct t as [|c t]; cbn.
    + left. destruct (b_published body); cbn; repeat split.
    + right. exists (String c t).
      destruct (b_published body); cbn; repeat split; discriminate.
  - left. destruct (b_published body); cbn; repeat split.
Qed.

Lemma setFirst_Forall (P : Post -> Prop) (i : string) (d : UpdateData)
  (store : Store) :
  (forall p, P p -> P (applySet d p)) ->
  Forall P store -> Forall P (setFirst i d store).
Proof.
  intros Hd. induction 1 as [|p store Hp Hs IH]; simpl; [constructor|].
  destruct (String.eqb (_id p) i); constructor; auto.
Qed.

Lemma removeFirst_Forall (P : Post -> Prop) (i : string) (store : Store) :
  Forall P store -> Forall P (removeFirst i store).
Proof.
  induction 1 as [|p store Hp Hs IH]; simpl; [constructor|].
  destruct (String.eqb (_id p) i); [exact Hs | now constructor].
Qed.

(** X10.  Every post has a title that is not empty and the slug of that
    title: a store with that property keeps it through every create,
    update and delete. *)
Theorem writes_keep_slugs_derived (store : Store) (body : Body)
  (now1 now2 : Z) (i : string) :
  slugsDerived store ->
  slugsDerived (fst (createPost store body now1 i))
  /\ slugsDerived (fst (updatePost store i body now1 now2))
  /\ slugsDerived (fst (deletePost store i)).
Proof.
  unfold slugsDerived. intros H. split; [|split].
  - pose proof (createPost_store store body now1 i) as Hc.
    destruct (snd (createPost store body now1 i)) as [st p|st e];
      [|now rewrite Hc].
    destruct Hc as [-> [_ [_ [_ [_ [Ht Hs]]]]]].
    apply Forall_app. split; [exact H|]. now repeat constructor.
  - pose proof (updatePost_store store i body now1 now2) as Hu.
    destruct (snd (updatePost store i body now1 now2)) as [st p|st e];
      [|now rewrite Hu].
    destruct Hu as [_ [-> _]]. apply setFirst_Forall; [|exact H].
    intros q [Ht Hs]. unfold applySet. cbn [title slug].
    destruct (buildUpdate_title body now1 now2)
      as [[-> [-> _]] | [t [Hne [_ [-> ->]]]]]; cbn; auto.
  - pose proof (deletePost_store store i) as Hd.
    destruct (snd (deletePost store i)) as [st p|st e]; [|now rewrite Hd].
    destruct Hd as [_ [-> _]]. now apply removeFirst_Forall.
Qed.

Lemma writes_keep_slugs_derived_witness :
  slugsDerived
    (fst (updatePost Sample.threeDays Sample.idB
            {| b_title := Some "Second, revised"; b_content := Some "";
               b_excerpt := None; b_tags := None; b_featured_image := None;
               b_published := None |} (Sample.day 9) (Sample.day 9))).
Proof.
  refine (proj1 (proj2 (writes_keep_slugs_derived Sample.threeDays _
                          (Sample.day 9) (Sample.day 9) Sample.idB _))).
  repeat constructor; discriminate.
Defined.





Lemma findOne_setFirst (i : string) (d : UpdateData) (store : Store) :
  findOne i (setFirst i d store) = option_map (applySet d) (findOne i store).
Proof.
  unfold findOne. induction store as [|p store IH]; simpl; [reflexivity|].
  destruct (String.eqb (_id p) i) eqn:E; simpl.
  - now rewrite E.
  - now rewrite E, IH.
Qed.

(** X12.  An update that succeeds returns the stored post with the fields
    of the body written over it: [_id] and [created_at] stay, [updated_at]
    is the time of the update, a field the body leaves out keeps its value,
    and a title that is absent or empty counts as left out, while an empty
    content, excerpt or image is written. *)
Theorem update_is_partial (store store' : Store) (i : string) (body : Body)
  (now1 now2 : Z) (status : Z) (reply : option Post) :
  updatePost store i body now1 now2 = (store', Json status reply) ->
  exists p p',
    findOne (objectId i) store = Some p
    /\ reply = Some p'
    /\ findOne (objectId i) store' = Some p'
    /\ _id p' = _id p
    /\ created_at p' = created_at p
    /\ updated_at p' = now1
    /\ title p' = (if truthyField (b_title body)
                   then default (title p) (b_title body) else title p)
    /\ slug p' = (if truthyField (b_title body)
                  then Slug.generateSlug (title p') else slug p)
    /\ content p' = default (content p) (b_content body)
    /\ excerpt p' = default (excerpt p) (b_excerpt body)
    /\ tags p' = default (tags p) (b_tags body)
    /\ featured_image p' = default (featured_image p) (b_featured_image body)
    /\ published p' = default (published p) (b_published body).
Proof.
  intros H.
  pose proof (updatePost_store store i body now1 now2) as Hu.
  rewrite H in Hu. cbn in Hu. destruct Hu as [Hv [-> [[p Hp] _]]].
  revert H. unfold updatePost. rewrite Hv. cbn [negb].
  destruct (updateOne (objectId i) (buildUpdate body now1 now2) store)
    as [[s'|]|] eqn:Hone; try discriminate.
  intros H. inversion H as [[Hs' Hst Hr]]. subst s'.
  rewrite findOne_setFirst, Hp. cbn [option_map].
  exists p, (applySet (buildUpdate body now1 now2) p).
  repeat split.
  - unfold buildUpdate.
    destruct (b_title body) as [[|c t]|], (b_published body); reflexivity.
  - unfold buildUpdate.
    destruct (b_title body) as [[|c t]|], (b_published body); reflexivity.
  - unfold buildUpdate.
    destruct (b_title body) as [[|c t]|], (b_published body); reflexivity.
  - unfold buildUpdate.
    destruct (b_title body) as [[|c t]|], (b_published body); reflexivity.
  - unfold buildUpdate.
    destruct (b_title body) as [[|c t]|], (b_published body); reflexivity.
  - unfold buildUpdate.
    destruct (b_title body) as [[|c t]|], (b_published body); reflexivity.
  - unfold buildUpdate.
    destruct (b_title body) as [[|c t]|], (b_published body); reflexivity.
  - unfold buildUpdate.
    destruct (b_title body) as [[|c t]|], (b_published body); reflexivity.
Qed.

Lemma update_is_partial_witness :
  exists p',
    snd (updatePost Sample.threeDays Sample.idB
           {| b_title := Some ""; b_content := Some "";
              b_excerpt := None; b_tags := None; b_featured_image := None;
              b_published := None |} (Sample.day 9) (Sample.day 9))
    = Json 200 (Some p')
    /\ title p' = "Second" /\ content p' = "".
Proof.
  destruct (update_is_partial Sample.threeDays _ Sample.idB
              {| b_title := Some ""; b_content := Some "";
                 b_excerpt := None; b_tags := None; b_featured_image := None;
                 b_published := None |} (Sample.day 9) (Sample.day 9) 200 _
              eq_refl) as [p [p' [Hp [Hr [_ [_ [_ [_ [Ht [_ [Hc _]]]]]]]]]]].
  inversion Hp; subst p. inversion Hr; subst p'.
  eexists. split; [reflexivity | split; reflexivity].
Defined.

Lemma setFirst_keeps_others (i : string) (d : UpdateData) (store : Store)
  (q : Post) :
  In q store -> _id q <> i -> In q (setFirst i d store).
Proof.
  induction store as [|p store IH]; simpl; [tauto|].
  intros [-> | Hq] Hne.
  - destruct (String.eqb (_id q) i) eqn:E; [|now left].
    apply String.eqb_eq in E. contradiction.
  - destruct (String.eqb (_id p) i); [now right | right; now apply IH].
Qed.

(** X13.  An update, whatever its outcome, keeps the number of posts and
    leaves every post with another [_id] as it is. *)
Theorem update_touches_one_post (store : Store) (i : string) (body : Body)
  (now1 now2 : Z) (q : Post) :
  In q store ->
  _id q <> objectId i ->
  In q (fst (updatePost store i body now1 now2))
  /\ List.length (fst (updatePost store i body now1 now2)) = List.length store.
Proof.
  intros Hq Hne.
  pose proof (updatePost_store store i body now1 now2) as Hu.
  destruct (snd (updatePost store i body now1 now2)) as [st p|st e];
    [|rewrite Hu; now split].
  destruct Hu as [_ [-> _]]. split.
  - now apply setFirst_keeps_others.
  - apply setFirst_length.
Qed.

Lemma update_touches_one_post_witness :
  In Sample.first
    (fst (updatePost Sample.threeDays Sample.idB Sample.unpublish
            (Sample.day 9) (Sample.day 9))).
Proof.
  refine (proj1 (update_touches_one_post Sample.threeDays Sample.idB
                   Sample.unpublish (Sample.day 9) (Sample.day 9)
                   Sample.first _ _)).
  - left. reflexivity.
  - discriminate.
Defined.

Lemma removeFirst_In (i : string) (store : Store) (q : Post) :
  NoDup (List.map _id store) ->
  (In q (removeFirst i store) <-> In q store /\ _id q <> i).
Proof.
  induction store as [|p store IH]; simpl; intros Hnd; [tauto|].
  inversion Hnd as [|? ? Hnotin Hnd']; subst.
  destruct (String.eqb (_id p) i) eqn:E.
  - apply String.eqb_eq in E. split.
    + intros Hq. split; [now right|]. intros Heq. apply Hnotin.
      apply in_map_iff. exists q. split; congruence.
    + intros [[-> | Hq] Hne]; [contradiction | exact Hq].
  - apply String.eqb_neq in E. simpl. rewrite (IH Hnd'). split.
    + intros [-> | [Hq Hne]]; split; auto.
    + intros [[-> | Hq] Hne]; auto.
Qed.

Lemma removeFirst_length (i : string) (store : Store) (p : Post) :
  findOne i store = Some p ->
  List.length store = S (List.length (removeFirst i store)).
Proof.
  unfold findOne. induction store as [|q store IH]; simpl; [discriminate|].
  destruct (String.eqb (_id q) i); [reflexivity|].
  intros H. simpl. now rewrite (IH H).
Qed.

Lemma findOne_none_iff (i : string) (store : Store) :
  findOne i store = None <-> forall q, In q store -> _id q <> i.
Proof.
  unfold findOne. induction store as [|p store IH]; simpl.
  - split; [intros _ q [] | reflexivity].
  - destruct (String.eqb (_id p) i) eqn:E.
    + apply String.eqb_eq in E. split; [discriminate|].
      intros H. exfalso. apply (H p); auto.
    + apply String.eqb_neq in E. rewrite IH. split.
      * intros H q [-> | Hq]; auto.
      * intros H q Hq. apply H. now right.
Qed.

(** X14.  In a store without duplicate ids, a delete that succeeds removes
    the post with that id and no other: the store has one post less, its
    posts are those with another id, and reading the id afterwards answers
    404. *)
Theorem delete_removes_the_post (store store' : Store) (i : string)
  (status : Z) (body : unit) :
  NoDup (List.map _id store) ->
  deletePost store i = (store', Json status body) ->
  List.length store = S (List.length store')
  /\ (forall q, In q store' <-> In q store /\ _id q <> objectId i)
  /\ Reads.getPostById store' i = Failure 404 "Post not found".
Proof.
  intros Hnd H.
  pose proof (deletePost_store store i) as Hd.
  rewrite H in Hd. cbn in Hd. destruct Hd as [Hv [-> [p Hp]]].
  split; [now apply removeFirst_length with p|].
  split; [intros q; now apply removeFirst_In|].
  unfold Reads.getPostById. rewrite Hv. cbn [negb].
  assert (Hnone : findOne (objectId i) (removeFirst (objectId i) store) = None).
  { apply findOne_none_iff. intros q Hq. now apply removeFirst_In in Hq. }
  now rewrite Hnone.
Qed.

Lemma delete_removes_the_post_witness :
  Reads.getPostById (fst (deletePost Sample.threeDays Sample.idB)) Sample.idB
  = Failure 404 "Post not found".
Proof.
  refine (proj2 (proj2 (delete_removes_the_post Sample.threeDays _ Sample.idB
                          204 tt _ eq_refl))).
  repeat constructor; simpl; intuition discriminate.
Defined.

(** X15.  Two titles that differ only in the case of their letters cannot
    both be created: once the first post is stored, the create of the
    second, with a content, answers 500 and stores nothing. *)
Theorem same_title_in_other_case_is_refused
  (store store1 : Store) (body1 body2 : Body) (now1 now2 : Z)
  (id1 id2 : string) (status : Z) (p1 : Post) (t2 : string) :
  createPost store body1 now1 id1 = (store1, Json status p1) ->
  b_title body2 = Some t2 ->
  JSString.toLowerCase t2 = JSString.toLowerCase (title p1) ->
  truthyField (b_content body2) = true ->
  createPost store1 body2 now2 id2
  = (store1, Failure 500 "Failed to create post").
Proof.
  intros H1 Ht Hcase Hcontent.
  pose proof (createPost_store store body1 now1 id1) as Hc.
  rewrite H1 in Hc. cbn in Hc. destruct Hc as [-> [_ [_ [_ [_ [Hne Hs]]]]]].
  assert (Htruthy : truthyField (b_title body2) = true).
  { rewrite Ht. destruct t2 as [|c t2]; [|reflexivity].
    destruct (title p1); [congruence | discriminate]. }
  unfold createPost, insertOne. rewrite Htruthy, Hcontent.
  cbn [negb orb _id slug]. rewrite Ht. cbn [orEmpty].
  rewrite (SlugShape.generateSlug_ignores_case t2 (title p1) Hcase), <- Hs.
  assert (Htaken : slugTaken (slug p1) (store ++ [p1])%list = true).
  { apply slugTaken_iff. rewrite List.map_app. apply in_or_app.
    right. now left. }
  now rewrite Htaken, orb_true_r.
Qed.

Lemma same_title_in_other_case_is_refused_witness :
  createPost (fst (createPost [] (Sample.newPost true) (Sample.day 7)
                     Sample.idA))
    {| b_title := Some "TEST POST"; b_content := Some "other text";
       b_excerpt := None; b_tags := None; b_featured_image := None;
       b_published := None |} (Sample.day 8) Sample.idB
  = (fst (createPost [] (Sample.newPost true) (Sample.day 7) Sample.idA),
     Failure 500 "Failed to create post").
Proof.
  eapply same_title_in_other_case_is_refused
    with (store := []) (body1 := Sample.newPost true) (now1 := Sample.day 7)
         (id1 := Sample.idA) (status := 201%Z) (t2 := "TEST POST");
    reflexivity.
Defined.

End StoreMore.

(** ** Numbers as text *)

Module ParseFacts.
Import JSString JSParse.

Lemma digits_step (c : ascii) (s : string) (acc : Z) (seen : bool) (v : Z) :
  digitValue c = Some v -> (v <? 10)%Z = true ->
  digits 10 (String c s) acc seen = digits 10 s (acc * 10 + v)%Z true.
Proof. intros Hv Hlt. cbn [digits]. now rewrite Hv, Hlt. Qed.

Ltac digit_value :=
  match goal with
  | |- context [(Z.of_nat (code ?c) - 48)%Z] =>
      let v := eval vm_compute in (Z.of_nat (code c) - 48)%Z in
      change (Z.of_nat (code c) - 48)%Z with v
  end.

Lemma digits_of_uint_acc (d : Decimal.uint) (p : positive) :
  digits 10 (DecimalString.NilEmpty.string_of_uint d) (Zpos p) true
  = Some (Zpos (Pos.of_uint_acc d p)).
Proof.
  revert p. induction d as [|d IH|d IH|d IH|d IH|d IH|d IH|d IH|d IH|d IH|d IH];
    intros p; cbn [DecimalString.NilEmpty.string_of_uint Pos.of_uint_acc];
    [reflexivity|..];
    (erewrite digits_step; [|reflexivity|reflexivity]);
    rewrite <- IH; f_equal; digit_value; lia.
Qed.

Lemma digits_of_uint (d : Decimal.uint) :
  digits 10 (DecimalString.NilEmpty.string_of_uint d) 0 true
  = Some (Z.of_N (Pos.of_uint d)).
Proof.
  induction d as [|d IH|d IH|d IH|d IH|d IH|d IH|d IH|d IH|d IH|d IH];
    cbn [DecimalString.NilEmpty.string_of_uint Pos.of_uint];
    [reflexivity|..];
    (erewrite digits_step; [|reflexivity|reflexivity]);
    digit_value; [exact IH|..]; apply digits_of_uint_acc.
Qed.

Lemma option_map_mul_1 (o : option Z) : option_map (Z.mul 1) o = o.
Proof. destruct o as [z|]; [|reflexivity]. simpl. f_equal. now destruct z. Qed.

(** The text of a number starts with a digit, and a digit or nothing
    follows. *)
Lemma string_of_uint_shape (d : Decimal.uint) :
  d <> Decimal.Nil ->
  exists c rest,
    DecimalString.NilEmpty.string_of_uint d = String c rest
    /\ isDigit c = true
    /\ (rest = "" \/ exists c' rest', rest = String c' rest' /\ isDigit c' = true).
Proof.
  intros Hne. destruct d as [|d|d|d|d|d|d|d|d|d|d]; [contradiction|..];
    (eexists; eexists; split; [reflexivity|]; split; [reflexivity|]);
    (destruct d; [left; reflexivity|..]; right; eexists; eexists;
     split; reflexivity).
Qed.

Lemma isDigit_cases (c : ascii) :
  isDigit c = true ->
  In c ["0"; "1"; "2"; "3"; "4"; "5"; "6"; "7"; "8"; "9"]%char.
Proof.
  destruct c as [[] [] [] [] [] [] [] []]; intros H;
    try (vm_compute in H; discriminate H); simpl; tauto.
Qed.

Ltac each_digit H :=
  apply isDigit_cases in H; simpl in H;
  repeat (destruct H as [H | H]; [subst|]); [..|contradiction].

Lemma digit_not_space (c : ascii) : isDigit c = true -> isSpace c = false.
Proof.
  destruct c as [[] [] [] [] [] [] [] []]; intros H;
    try (vm_compute in H; discriminate H); reflexivity.
Qed.

Lemma parseInt_digits (c : ascii) (rest : string) :
  isDigit c = true ->
  (rest = "" \/ exists c' rest', rest = String c' rest' /\ isDigit c' = true) ->
  parseInt (String c rest) = digits 10 (String c rest) 0 false
  /\ parseInt (String "-" (String c rest))
     = option_map (Z.mul (-1)) (digits 10 (String c rest) 0 false).
Proof.
  intros Hc Hrest. pose proof (digit_not_space c Hc) as Hsp.
  unfold parseInt. cbn [trimStartBy]. rewrite Hsp.
  change (isSpace "-") with false. cbv beta iota.
  each_digit Hc;
    (destruct Hrest as [-> | [c' [rest' [-> Hc']]]];
     [split; reflexivity|]);
    each_digit Hc'; cbv beta iota; rewrite option_map_mul_1;
    split; reflexivity.
Qed.

(** [parseInt] reads back the text of an integer. *)
Lemma parseInt_numberToString (n : Z) : parseInt (numberToString n) = Some n.
Proof.
  unfold numberToString. destruct n as [|p|p]; [reflexivity|..];
    cbn [Z.to_int DecimalString.NilEmpty.string_of_int];
    destruct (string_of_uint_shape (Pos.to_uint p)
                (DecimalPos.Unsigned.to_uint_nonnil p))
      as [c [rest [Hs [Hc Hrest]]]];
    pose proof (digits_of_uint (Pos.to_uint p)) as Hd;
    rewrite Hs in *;
    destruct (parseInt_digits c rest Hc Hrest) as [Hpos Hneg].
  - rewrite Hpos. each_digit Hc;
      (erewrite digits_step in Hd; [|reflexivity|reflexivity]);
      (erewrite digits_step; [|reflexivity|reflexivity]);
      rewrite Hd, DecimalPos.Unsigned.of_to; reflexivity.
  - rewrite Hneg. each_digit Hc;
      (erewrite digits_step in Hd; [|reflexivity|reflexivity]);
      (erewrite digits_step; [|reflexivity|reflexivity]);
      rewrite Hd, DecimalPos.Unsigned.of_to; reflexivity.
Qed.
(** X16.  The server reads back the numbers the client writes: [parseInt]
    of the decimal text of a safe integer is that integer, so the position
    of an image and the page and page size of a query arrive as they were
    sent; a query without them is for page [1] with page size [10]. *)
Theorem numbers_survive_the_request (n page pageSize : Z)
  (search : option string) (wanted : option Server.TagsParam)
  (published : option string) :
  isSafeInteger n = true ->
  isSafeInteger page = true ->
  isSafeInteger pageSize = true ->
  parseInt (numberToString n) = Some n
  /\ parseIntOrZero (Some (numberToString n)) = n
  /\ Reads.readRequest (Some (numberToString page))
       (Some (numberToString pageSize)) search wanted published
     = Some {| Server.page := page; Server.pageSize := pageSize;
               Server.search := search; Server.wanted := wanted;
               Server.publishedParam := published |}
  /\ Reads.readRequest None None search wanted published
     = Some {| Server.page := 1; Server.pageSize := 10;
               Server.search := search; Server.wanted := wanted;
               Server.publishedParam := published |}.
Proof.
  intros _ _ _.
  split; [apply parseInt_numberToString|].
  split; [unfold parseIntOrZero; now rewrite parseInt_numberToString|].
  split; [|reflexivity].
  unfold Reads.readRequest. cbn [JS.default].
  now rewrite !parseInt_numberToString.
Qed.

Lemma numbers_survive_the_request_witness :
  parseInt (numberToString (-3)) = Some (-3)%Z
  /\ parseIntOrZero (Some (numberToString (-3))) = (-3)%Z
  /\ Reads.readRequest (Some (numberToString 2)) (Some (numberToString 9))
       (Some "proof") None None
     = Some {| Server.page := 2; Server.pageSize := 9;
               Server.search := Some "proof"; Server.wanted := None;
               Server.publishedParam := None |}
  /\ Reads.readRequest None None (Some "proof") None None
     = Some {| Server.page := 1; Server.pageSize := 10;
               Server.search := Some "proof"; Server.wanted := None;
               Server.publishedParam := None |}.
Proof.
  apply (numbers_survive_the_request (-3) 2 9 (Some "proof") None None);
    reflexivity.
Defined.

End ParseFacts.

(** ** Images *)

Module ImageFacts.
Import JS Images Notions.

Lemma insertByPosition_perm (img : Image) (l : list Image) :
  Permutation (insertByPosition img l) (img :: l).
Proof.
  induction l as [|other l IH]; simpl; [reflexivity|].
  destruct (position img <? position other)%Z; [reflexivity|].
  rewrite IH. apply perm_swap.
Qed.

Lemma sortByPosition_perm (l : list Image) : Permutation (sortByPosition l) l.
Proof.
  unfold sortByPosition. induction l as [|img l IH]; simpl; [reflexivity|].
  rewrite insertByPosition_perm. now constructor.
Qed.

Lemma insertByPosition_sorted (img : Image) (l : list Image) :
  StronglySorted byPosition l -> StronglySorted byPosition (insertByPosition img l).
Proof.
  induction 1 as [|other l Hl IH Ho]; simpl; [repeat constructor|].
  destruct (position img <? position other)%Z eqn:E.
  - apply Z.ltb_lt in E. constructor; [now constructor|].
    constructor; [unfold byPosition; lia|].
    rewrite Forall_forall in *. intros x Hx.
    specialize (Ho x Hx). unfold byPosition in *. lia.
  - apply Z.ltb_ge in E. constructor; [exact IH|].
    rewrite Forall_forall in *. intros x Hx.
    apply (Permutation_in _ (insertByPosition_perm img l)) in Hx.
    destruct Hx as [<- | Hx]; [exact E | now apply Ho].
Qed.

(** X17.  The images listed for a post are exactly the stored images with
    that [post_id], each once, in ascending order of [position]. *)
Theorem listed_images_are_sorted (images : ImageStore) (i : string) :
  StronglySorted byPosition (getPostImages images i)
  /\ Permutation (getPostImages images i)
       (List.filter (fun img => String.eqb (post_id img) i) images).
Proof.
  unfold getPostImages. split; [|apply sortByPosition_perm].
  unfold sortByPosition.
  induction (List.filter (fun img => String.eqb (post_id img) i) images)
    as [|img l IH]; simpl; [constructor|].
  now apply insertByPosition_sorted.
Qed.

(** X18.  An upload with a file that can be processed stores one image
    under the id of the URL, whether or not a post has that id: the image
    is appended, has the position read from the form (zero when it is
    absent or not a number) and is in the list of that id afterwards. *)
Theorem added_image_is_listed (images images' : ImageStore) (i : string)
  (fields : ImageFields) (file : option File) (stamp now : Z)
  (newId : string) (status : Z) (img : Image) :
  addImage images i fields file stamp now newId
  = (images', Server.Json status img) ->
  status = 201%Z
  /\ images' = (images ++ [img])%list
  /\ post_id img = i
  /\ position img = JSParse.parseIntOrZero (f_position fields)
  /\ created_at img = now
  /\ In img (getPostImages images' i).
Proof.
  unfold addImage. destruct file as [f|]; [|discriminate].
  destruct (processAndSaveImage f stamp) as [url|]; [|discriminate].
  destruct (idTaken newId images); [discriminate|].
  intros H. inversion H; subst. cbn. repeat split; try reflexivity.
  apply (Permutation_in _ (Permutation_sym (sortByPosition_perm _))).
  apply filter_In. split; [|apply String.eqb_refl].
  apply in_or_app. right. now left.
Qed.

Lemma added_image_is_listed_witness :
  exists img,
    snd (addImage MoreSamples.gallery "no-such-post" (MoreSamples.atPosition 7)
           (Some MoreSamples.photo) 1700000000000 1700000000001 "i4")
    = Server.Json 201 img
    /\ position img = 7%Z
    /\ In img (getPostImages (MoreSamples.gallery ++ [img])%list
                 "no-such-post").
Proof.
  eexists. split; [reflexivity|].
  destruct (added_image_is_listed MoreSamples.gallery _ "no-such-post"
              (MoreSamples.atPosition 7) (Some MoreSamples.photo)
              1700000000000 1700000000001 "i4" 201 _ eq_refl)
    as [_ [_ [_ [Hp [_ Hin]]]]].
  split; [reflexivity | exact Hin].
Defined.

Lemma filter_filter_other (i j : string) (images : ImageStore) :
  j <> i ->
  List.filter (fun img => String.eqb (post_id img) j) (deleteMany i images)
  = List.filter (fun img => String.eqb (post_id img) j) images.
Proof.
  intros Hne. unfold deleteMany.
  induction images as [|img images IH]; simpl; [reflexivity|].
  destruct (String.eqb (post_id img) i) eqn:E; simpl.
  - apply String.eqb_eq in E.
    assert (Hj : String.eqb (post_id img) j = false)
      by (apply String.eqb_neq; congruence).
    now rewrite Hj.
  - now rewrite IH.
Qed.

Lemma filter_deleted (i : string) (images : ImageStore) :
  List.filter (fun img => String.eqb (post_id img) i) (deleteMany i images) = [].
Proof.
  unfold deleteMany. induction images as [|img images IH]; simpl; [reflexivity|].
  destruct (String.eqb (post_id img) i) eqn:E; simpl; [exact IH|].
  now rewrite E.
Qed.

(** X19.  A delete that removes the post removes every image stored under
    the id as the URL spells it and leaves the lists of all other ids as
    they were; a delete that fails leaves the images alone. *)
Theorem delete_cascades_to_images (store : Server.Store) (images : ImageStore)
  (i j : string) :
  j <> i ->
  match snd (deletePost store images i) with
  | Server.Json _ _ =>
      getPostImages (snd (fst (deletePost store images i))) i = []
      /\ getPostImages (snd (fst (deletePost store images i))) j
         = getPostImages images j
  | Server.Failure _ _ => snd (fst (deletePost store images i)) = images
  end.
Proof.
  intros Hne. unfold deletePost.
  destruct (Server.deletePost store i) as [store' [st b|st e]]; cbn;
    [|reflexivity].
  unfold getPostImages. now rewrite filter_deleted, filter_filter_other.
Qed.

Lemma delete_cascades_to_images_witness :
  getPostImages
    (snd (fst (deletePost Sample.threeDays MoreSamples.gallery Sample.idA)))
    Sample.idA = []
  /\ getPostImages
       (snd (fst (deletePost Sample.threeDays MoreSamples.gallery Sample.idA)))
       Sample.idB
     = [MoreSamples.image "i2" Sample.idB 0].
Proof.
  exact (delete_cascades_to_images Sample.threeDays MoreSamples.gallery
           Sample.idA Sample.idB ltac:(discriminate)).
Defined.

End ImageFacts.

(** ** The fixture fallback, further *)

Module MockFacts.
Import JS Notions Spec.

Lemma mock_page_chunk (k size : nat) (search : option string)
  (wanted : option (list string)) :
  BlogAPI.posts (BlogAPI.mockQuery (Z.of_nat (S k)) (Z.of_nat (S size))
                   search wanted)
  = firstn (S size)
      (skipn (k * S size)
         (BlogAPI.applyTags wanted (BlogAPI.applySearch search BlogAPI.mockPosts))).
Proof.
  unfold BlogAPI.mockQuery. cbn [BlogAPI.posts].
  replace ((Z.of_nat (S k) - 1) * Z.of_nat (S size))%Z
    with (Z.of_nat (k * S size)) by lia.
  apply PageFacts.slice_chunk.
Qed.

(** X20.  With a page size of at least one, the pages [1] to [n] of the
    fixture fallback, one after the other, are the fixture posts that pass
    the search and the tags, in the order of the fixture, as soon as [n]
    pages can hold them all. *)
Theorem mock_pages_partition (pageSize : Z) (n : nat) (search : option string)
  (wanted : option (list string)) :
  (1 <= pageSize)%Z ->
  (BlogAPI.total (BlogAPI.mockQuery 1 pageSize search wanted)
   <= Z.of_nat n * pageSize)%Z ->
  List.concat
    (List.map (fun k => BlogAPI.posts (BlogAPI.mockQuery k pageSize search wanted))
       (pagesUpTo n))
  = BlogAPI.applyTags wanted (BlogAPI.applySearch search BlogAPI.mockPosts).
Proof.
  intros Hs Hn. cbn [BlogAPI.mockQuery BlogAPI.total] in Hn.
  destruct (Z.to_nat pageSize) as [|size] eqn:Hsize; [lia|].
  assert (Hps : pageSize = Z.of_nat (S size)) by lia. subst pageSize.
  unfold pagesUpTo. rewrite List.map_map.
  rewrite (List.map_ext _
             (fun k => firstn (S size)
                         (skipn (k * S size)
                            (BlogAPI.applyTags wanted
                               (BlogAPI.applySearch search BlogAPI.mockPosts)))));
    [|intros k; apply mock_page_chunk].
  apply PageFacts.chunks_cover. nia.
Qed.

Lemma mock_pages_partition_witness :
  List.concat
    (List.map (fun k => BlogAPI.posts (BlogAPI.mockQuery k 2 None None))
       (pagesUpTo 2))
  = BlogAPI.mockPosts.
Proof.
  apply (mock_pages_partition 2 2 None None); [lia|].
  change (BlogAPI.total (BlogAPI.mockQuery 1 2 None None)) with 3%Z. lia.
Defined.

(** X21.  With a page number and a page size of at least one, a page of
    the fixture fallback never holds more posts than the page size, and a
    page that starts at or after the last matching post is empty. *)
Theorem mock_page_bounds (page pageSize : Z) (search : option string)
  (wanted : option (list string)) :
  (1 <= page)%Z ->
  (1 <= pageSize)%Z ->
  (Z.of_nat (List.length
               (BlogAPI.posts (BlogAPI.mockQuery page pageSize search wanted)))
   <= pageSize)%Z
  /\ ((BlogAPI.total (BlogAPI.mockQuery page pageSize search wanted)
       <= (page - 1) * pageSize)%Z ->
      BlogAPI.posts (BlogAPI.mockQuery page pageSize search wanted) = []).
Proof.
  intros Hp Hs.
  destruct (Z.to_nat pageSize) as [|size] eqn:Hsize; [lia|].
  destruct (Z.to_nat page) as [|k] eqn:Hk; [lia|].
  assert (Hps : pageSize = Z.of_nat (S size)) by lia.
  assert (Hpg : page = Z.of_nat (S k)) by lia. subst page pageSize.
  rewrite mock_page_chunk. split.
  - rewrite length_firstn. lia.
  - cbn [BlogAPI.mockQuery BlogAPI.total]. intros Hlast.
    rewrite skipn_all2; [now destruct size | nia].
Qed.

Lemma mock_page_bounds_witness :
  BlogAPI.posts (BlogAPI.mockQuery 3 2 None None) = [].
Proof.
  refine (proj2 (mock_page_bounds 3 2 None None _ _) _); try lia.
  change (BlogAPI.total (BlogAPI.mockQuery 3 2 None None)) with 3%Z. lia.
Defined.

Lemma tagsMatch_iff (wanted : list string) (p : BlogAPI.BlogPost) :
  BlogAPI.tagsMatch wanted p = true
  <-> exists own, BlogAPI.tags p = Some own /\ sharesTag wanted own.
Proof.
  unfold BlogAPI.tagsMatch, sharesTag.
  destruct (BlogAPI.tags p) as [own|].
  - rewrite existsb_exists. split.
    + intros [tag [Hw Ho]]. apply existsb_exists in Ho as [o [Ho E]].
      apply String.eqb_eq in E. subst. exists own. split; [reflexivity|].
      now exists o.
    + intros [own' [E [tag [Hw Ho]]]]. inversion E; subst own'.
      exists tag. split; [exact Hw|]. apply existsb_exists.
      exists tag. split; [exact Ho | apply String.eqb_refl].
  - split; [discriminate | intros [own [E _]]; discriminate].
Qed.

(** X22.  A search text and a list of tags given together must both hold:
    the fixture fallback returns the fixture posts in which the text occurs
    and which carry at least one of the tags. *)
Theorem mock_search_and_tags (text : string) (wanted : list string)
  (p : BlogAPI.BlogPost) :
  text <> EmptyString ->
  wanted <> [] ->
  In p (BlogAPI.posts (BlogAPI.mockQuery 1 10 (Some text) (Some wanted)))
  <-> In p BlogAPI.mockPosts
      /\ clientSearchHit text p
      /\ exists own, BlogAPI.tags p = Some own /\ sharesTag wanted own.
Proof.
  intros Ht Hw. unfold BlogAPI.mockQuery. cbn [BlogAPI.posts].
  change ((1 - 1) * 10)%Z with 0%Z. change (0 + 10)%Z with 10%Z.
  assert (Hlen : (List.length
                    (BlogAPI.applyTags (Some wanted)
                       (BlogAPI.applySearch (Some text) BlogAPI.mockPosts))
                  <= 3)%nat).
  { unfold BlogAPI.applyTags, BlogAPI.applySearch.
    rewrite (proj2 (SearchFacts.truthy_iff text) Ht).
    destruct (0 <? List.length wanted)%nat;
      repeat (etransitivity; [apply filter_length_le|]); simpl; lia. }
  rewrite SearchResults.slice_whole by lia.
  unfold BlogAPI.applyTags, BlogAPI.applySearch.
  rewrite (proj2 (SearchFacts.truthy_iff text) Ht).
  destruct wanted as [|w wanted]; [contradiction|]. cbn [List.length Nat.ltb Nat.leb].
  rewrite !filter_In, SearchFacts.client_searchMatches_iff, tagsMatch_iff by exact Ht.
  tauto.
Qed.

Lemma mock_search_and_tags_witness :
  exists p, In p (BlogAPI.posts
                    (BlogAPI.mockQuery 1 10 (Some "DESIGN") (Some ["css"; "sql"])))
            /\ BlogAPI.id p = "3".
Proof.
  eexists. split.
  - apply (mock_search_and_tags "DESIGN" ["css"; "sql"]); try discriminate.
    split; [right; right; left; reflexivity|]. split.
    + right. left. apply SearchFacts.includes_lower_iff. reflexivity.
    + eexists. split; [reflexivity|]. exists "css". simpl. tauto.
  - reflexivity.
Defined.

(** X23.  For a page that the fixture fallback fills at least in part, the
    range the home page prints, "Showing a - b", counts exactly the posts
    of the page. *)
Theorem shown_range_counts_the_page (page pageSize : Z)
  (search : option string) (wanted : option (list string)) :
  (1 <= page)%Z ->
  (1 <= pageSize)%Z ->
  ((page - 1) * pageSize
   < BlogAPI.total (BlogAPI.mockQuery page pageSize search wanted))%Z ->
  (Components.shownTo (BlogAPI.mockQuery page pageSize search wanted)
   - Components.shownFrom (BlogAPI.mockQuery page pageSize search wanted) + 1
   = Z.of_nat (List.length
                 (BlogAPI.posts (BlogAPI.mockQuery page pageSize search wanted))))%Z.
Proof.
  intros Hp Hs Hin.
  destruct (Z.to_nat pageSize) as [|size] eqn:Hsize; [lia|].
  destruct (Z.to_nat page) as [|k] eqn:Hk; [lia|].
  assert (Hps : pageSize = Z.of_nat (S size)) by lia.
  assert (Hpg : page = Z.of_nat (S k)) by lia. subst page pageSize.
  rewrite mock_page_chunk, length_firstn, length_skipn.
  unfold Components.shownTo, Components.shownFrom.
  cbn [BlogAPI.mockQuery BlogAPI.total BlogAPI.page BlogAPI.pageSize] in *.
  lia.
Qed.

Lemma shown_range_counts_the_page_witness :
  (Components.shownTo (BlogAPI.mockQuery 2 2 None None)
   - Components.shownFrom (BlogAPI.mockQuery 2 2 None None) + 1 = 1)%Z.
Proof.
  apply (shown_range_counts_the_page 2 2 None None); try lia.
  change (BlogAPI.total (BlogAPI.mockQuery 2 2 None None)) with 3%Z. lia.
Defined.

End MockFacts.

(** ** The pager *)

Module PagerFacts.
Import Components.

Lemma zrange_from (lo : Z) (a n : nat) (x : Z) :
  In x (List.map (fun k => (lo + Z.of_nat k)%Z) (seq a n))
  <-> (lo + Z.of_nat a <= x < lo + Z.of_nat a + Z.of_nat n)%Z.
Proof.
  rewrite in_map_iff. split.
  - intros [k [<- Hk]]. apply in_seq in Hk. lia.
  - intros H. exists (Z.to_nat (x - lo)). split; [lia|]. apply in_seq. lia.
Qed.

Lemma zrange_In (lo hi x : Z) : In x (zrange lo hi) <-> (lo <= x <= hi)%Z.
Proof. unfold zrange. rewrite zrange_from. lia. Qed.

Lemma zrange_length (lo hi : Z) :
  List.length (zrange lo hi) = Z.to_nat (hi - lo + 1).
Proof. unfold zrange. now rewrite length_map, length_seq. Qed.

Lemma zrange_sorted (lo hi : Z) : StronglySorted Z.lt (zrange lo hi).
Proof.
  unfold zrange. generalize (Z.to_nat (hi - lo + 1)) as n. generalize 0%nat as a.
  intros a n. revert a. induction n as [|n IH]; intros a; simpl; constructor.
  - apply IH.
  - apply Forall_forall. intros x Hx. apply zrange_from in Hx. lia.
Qed.

Lemma sorted_app {A : Type} (R : A -> A -> Prop) (l1 l2 : list A) :
  StronglySorted R l1 -> StronglySorted R l2 ->
  (forall x y, In x l1 -> In y l2 -> R x y) ->
  StronglySorted R (l1 ++ l2).
Proof.
  induction 1 as [|a l1 Hl IH Ha]; intros H2 Hcross; simpl; [exact H2|].
  constructor.
  - apply IH; [exact H2|]. intros x y Hx Hy. apply Hcross; [now right | exact Hy].
  - apply Forall_app. split; [exact Ha|].
    apply Forall_forall. intros y Hy. apply Hcross; [now left | exact Hy].
Qed.

Lemma pageNumbers_app (l1 l2 : list PageItem) :
  pageNumbers (l1 ++ l2) = (pageNumbers l1 ++ pageNumbers l2)%list.
Proof.
  induction l1 as [|[n|] l1 IH]; simpl; [reflexivity | now rewrite IH | exact IH].
Qed.

Lemma pageNumbers_map (l : list Z) : pageNumbers (List.map PageNumber l) = l.
Proof. induction l as [|n l IH]; simpl; [reflexivity | now rewrite IH]. Qed.

(** The numbers among the buttons: the first page, the window around the
    current page, the last page. *)
Lemma visible_numbers (currentPage totalPages : Z) :
  (2 <= totalPages)%Z ->
  pageNumbers (getVisiblePages currentPage totalPages)
  = (1%Z :: zrange (Z.max 2 (currentPage - 2))
                   (Z.min (totalPages - 1) (currentPage + 2))
        ++ [totalPages])%list.
Proof.
  intros Ht. unfold getVisiblePages.
  rewrite !pageNumbers_app, pageNumbers_map.
  assert (H1 : (1 <? totalPages)%Z = true) by (apply Z.ltb_lt; lia).
  rewrite H1.
  destruct (2 <? currentPage - 2)%Z, (currentPage + 2 <? totalPages - 1)%Z;
    reflexivity.
Qed.

(** X24.  For at least two pages and a current page among them, the pager
    shows at most nine buttons, the first for page one and the last for the
    last page; the current page is among them, and the page numbers grow
    from left to right. *)
Theorem pager_buttons (currentPage totalPages : Z) :
  (2 <= totalPages)%Z ->
  (1 <= currentPage <= totalPages)%Z ->
  hd_error (getVisiblePages currentPage totalPages) = Some (PageNumber 1)
  /\ List.last (getVisiblePages currentPage totalPages) Dots
     = PageNumber totalPages
  /\ In (PageNumber currentPage) (getVisiblePages currentPage totalPages)
  /\ StronglySorted Z.lt (pageNumbers (getVisiblePages currentPage totalPages))
  /\ (List.length (getVisiblePages currentPage totalPages) <= 9)%nat.
Proof.
  intros Ht Hc. split; [|split; [|split; [|split]]].
  - unfold getVisiblePages. now destruct (2 <? currentPage - 2)%Z.
  - unfold getVisiblePages. rewrite !app_assoc.
    assert (H1 : (1 <? totalPages)%Z = true) by (apply Z.ltb_lt; lia).
    rewrite H1.
    destruct (currentPage + 2 <? totalPages - 1)%Z.
    + change [Dots; PageNumber totalPages]
        with ([Dots] ++ [PageNumber totalPages])%list.
      rewrite app_assoc. apply last_last.
    + apply last_last.
  - unfold getVisiblePages.
    destruct (Z.eq_dec currentPage 1) as [-> | H1].
    { apply in_or_app. left. destruct (2 <? 1 - 2)%Z; now left. }
    destruct (Z.eq_dec currentPage totalPages) as [-> | H2].
    { apply in_or_app. right. apply in_or_app. right.
      assert (H : (1 <? totalPages)%Z = true) by (apply Z.ltb_lt; lia).
      rewrite H. destruct (totalPages + 2 <? totalPages - 1)%Z; simpl; tauto. }
    apply in_or_app. right. apply in_or_app. left.
    apply in_map. apply zrange_In. lia.
  - rewrite visible_numbers by exact Ht.
    change (1%Z :: ?l) with ([1%Z] ++ l)%list.
    apply (sorted_app Z.lt [1%Z]).
    + repeat constructor.
    + apply sorted_app; [apply zrange_sorted | repeat constructor|].
      intros x y Hx [<- | []]. apply zrange_In in Hx. lia.
    + intros x y [<- | []] Hy. apply in_app_or in Hy as [Hy | [<- | []]].
      * apply zrange_In in Hy. lia.
      * lia.
  - unfold getVisiblePages. rewrite !length_app, length_map, zrange_length.
    destruct (2 <? currentPage - 2)%Z, (currentPage + 2 <? totalPages - 1)%Z,
      (1 <? totalPages)%Z; simpl; lia.
Qed.

Lemma pager_buttons_witness :
  In (PageNumber 5) (getVisiblePages 5 10)
  /\ (List.length (getVisiblePages 5 10) <= 9)%nat.
Proof.
  destruct (pager_buttons 5 10 ltac:(lia) ltac:(lia)) as [_ [_ [Hin [_ Hlen]]]].
  split; [exact Hin | exact Hlen].
Defined.

End PagerFacts.

(** ** Tags in the forms *)

Module TagFacts.
Import JSString Components Notions.

Lemma arrayIncludes_iff (l : list string) (x : string) :
  arrayIncludes l x = true <-> In x l.
Proof.
  unfold arrayIncludes. rewrite existsb_exists. split.
  - intros [y [Hy E]]. apply String.eqb_eq in E. now subst.
  - intros H. exists x. split; [exact H | apply String.eqb_refl].
Qed.

Lemma arrayIncludes_false (l : list string) (x : string) :
  arrayIncludes l x = false <-> ~ In x l.
Proof.
  rewrite <- arrayIncludes_iff. destruct (arrayIncludes l x); split; congruence.
Qed.

Lemma In_without (l : list string) (x y : string) :
  In y (List.filter (fun t => negb (String.eqb t x)) l) <-> In y l /\ y <> x.
Proof.
  rewrite filter_In, negb_true_iff, String.eqb_neq. tauto.
Qed.

Lemma NoDup_append (l : list string) (x : string) :
  NoDup l -> ~ In x l -> NoDup (l ++ [x]).
Proof.
  intros Hl Hx. apply Permutation_NoDup with (x :: l);
    [apply Permutation_cons_append | now constructor].
Qed.

(** X25.  Clicking a tag of the search bar flips that tag and no other: it
    is selected afterwards exactly when it was not before, every other tag
    keeps its state, and no tag gets selected twice. *)
Theorem tag_toggle_flips_one (prev : list string) (tag other : string) :
  other <> tag ->
  NoDup prev ->
  (In tag (handleTagToggle prev tag) <-> ~ In tag prev)
  /\ (In other (handleTagToggle prev tag) <-> In other prev)
  /\ NoDup (handleTagToggle prev tag).
Proof.
  intros Hne Hnd. unfold handleTagToggle.
  destruct (arrayIncludes prev tag) eqn:E.
  - apply arrayIncludes_iff in E. rewrite !In_without. repeat split; try tauto.
    now apply NoDup_filter.
  - apply arrayIncludes_false in E. rewrite !in_app_iff. simpl.
    repeat split; try tauto.
    + intros [H | [H | []]]; [exact H | congruence].
    + now apply NoDup_append.
Qed.

Lemma tag_toggle_flips_one_witness :
  (In "css" (handleTagToggle ["sql"; "css"] "css") <-> ~ In "css" ["sql"; "css"])
  /\ (In "sql" (handleTagToggle ["sql"; "css"] "css") <-> In "sql" ["sql"; "css"]).
Proof.
  destruct (tag_toggle_flips_one ["sql"; "css"] "css" "sql") as [H1 [H2 _]].
  - discriminate.
  - repeat constructor; simpl; intuition discriminate.
  - split; [exact H1 | exact H2].
Defined.

Lemma trimEndBy_cons (p : ascii -> bool) (c : ascii) (s : string) :
  trimEndBy p (String c s)
  = match trimEndBy p s with
    | EmptyString => if p c then EmptyString else String c EmptyString
    | t => String c t
    end.
Proof. reflexivity. Qed.

Lemma trimEndBy_idem (p : ascii -> bool) (s : string) :
  trimEndBy p (trimEndBy p s) = trimEndBy p s.
Proof.
  induction s as [|c s IH]; [reflexivity|]. rewrite trimEndBy_cons.
  destruct (trimEndBy p s) as [|d t] eqn:E.
  - destruct (p c) eqn:Hc; [reflexivity|].
    rewrite trimEndBy_cons. cbn [trimEndBy]. now rewrite Hc.
  - rewrite trimEndBy_cons, IH. reflexivity.
Qed.

Lemma trimStartBy_head (p : ascii -> bool) (s : string) :
  trimStartBy p s = EmptyString
  \/ exists c t, trimStartBy p s = String c t /\ p c = false.
Proof.
  induction s as [|c s IH]; [now left|]. cbn [trimStartBy].
  destruct (p c) eqn:Hc; [exact IH|]. right. now exists c, s.
Qed.

Lemma trimEndBy_head (p : ascii -> bool) (c : ascii) (t : string) :
  p c = false -> exists u, trimEndBy p (String c t) = String c u.
Proof.
  intros Hc. cbn [trimEndBy]. rewrite Hc.
  destruct (trimEndBy p t); eauto.
Qed.

(** [trim] of a trimmed text changes nothing. *)
Lemma trim_idem (s : string) : trim (trim s) = trim s.
Proof.
  unfold trim.
  destruct (trimStartBy_head isSpace s) as [-> | [c [t [-> Hc]]]];
    [reflexivity|].
  destruct (trimEndBy_head isSpace c t Hc) as [u Hu].
  rewrite Hu. cbn [trimStartBy]. rewrite Hc, <- Hu. apply trimEndBy_idem.
Qed.

(** X26.  The tags of the admin form stay without duplicates, without
    empty tags and without whitespace at the ends of a tag through every
    add and remove; a removed tag is gone, and removing the tag just added
    undoes the add. *)
Theorem form_tags_stay_tidy (tags : list string) (newTag gone : string) :
  NoDup tags ->
  Forall tidyTag tags ->
  NoDup (handleAddTag tags newTag)
  /\ Forall tidyTag (handleAddTag tags newTag)
  /\ NoDup (handleRemoveTag tags gone)
  /\ Forall tidyTag (handleRemoveTag tags gone)
  /\ ~ In gone (handleRemoveTag tags gone)
  /\ handleRemoveTag (handleAddTag tags newTag) (trim newTag)
     = handleRemoveTag tags (trim newTag).
Proof.
  intros Hnd Htidy. unfold handleAddTag, handleRemoveTag.
  repeat split.
  - destruct (truthy (trim newTag)
              && negb (arrayIncludes tags (trim newTag))) eqn:E; [|exact Hnd].
    apply andb_true_iff in E as [_ E]. apply negb_true_iff in E.
    apply NoDup_append; [exact Hnd | now apply arrayIncludes_false].
  - destruct (truthy (trim newTag)
              && negb (arrayIncludes tags (trim newTag))) eqn:E; [|exact Htidy].
    apply andb_true_iff in E as [E _].
    apply Forall_app. split; [exact Htidy|]. repeat constructor.
    + now apply SearchFacts.truthy_iff.
    + apply trim_idem.
  - now apply NoDup_filter.
  - apply Forall_forall. intros t Ht. apply filter_In in Ht as [Ht _].
    rewrite Forall_forall in Htidy. now apply Htidy.
  - intros H. apply In_without in H. tauto.
  - destruct (truthy (trim newTag)
              && negb (arrayIncludes tags (trim newTag))); [|reflexivity].
    rewrite filter_app. simpl. rewrite String.eqb_refl. simpl.
    apply app_nil_r.
Qed.

Lemma form_tags_stay_tidy_witness :
  handleAddTag ["news"] "  rocq " = ["news"; "rocq"]
  /\ Forall tidyTag (handleAddTag ["news"] "  rocq ").
Proof.
  split; [reflexivity|].
  refine (proj1 (proj2 (form_tags_stay_tidy ["news"] "  rocq " "" _ _))).
  - repeat constructor. simpl. tauto.
  - repeat constructor. discriminate.
Defined.

End TagFacts.

(** ** The editor *)

Module EditorFacts.
Import Components.

Lemma length_app (a b : string) :
  String.length (a ++ b) = (String.length a + String.length b)%nat.
Proof. induction a as [|c a IH]; simpl; [reflexivity | now rewrite IH]. Qed.

Lemma app_assoc (a b c : string) : (a ++ b) ++ c = a ++ b ++ c.
Proof. induction a as [|x a IH]; simpl; [reflexivity | now rewrite IH]. Qed.

Lemma take_drop (n : nat) (s : string) : take n s ++ drop n s = s.
Proof.
  revert s. induction n as [|n IH]; intros s; [now destruct s|].
  destruct s as [|c s]; [reflexivity|]. simpl. now rewrite IH.
Qed.

Lemma take_length (n : nat) (s : string) :
  String.length (take n s) = Nat.min n (String.length s).
Proof.
  revert s. induction n as [|n IH]; intros s; [now destruct s|].
  destruct s as [|c s]; [reflexivity|]. simpl. now rewrite IH.
Qed.

Lemma drop_drop (m n : nat) (s : string) : drop n (drop m s) = drop (m + n) s.
Proof.
  revert s. induction m as [|m IH]; intros s; [now destruct s|].
  destruct s as [|c s]; [now destruct n|]. simpl. apply IH.
Qed.

Lemma take_app_exact (a b : string) : take (String.length a) (a ++ b) = a.
Proof.
  induction a as [|c a IH]; simpl; [now destruct b | now rewrite IH].
Qed.

Lemma drop_app_exact (a b : string) : drop (String.length a) (a ++ b) = b.
Proof. induction a as [|c a IH]; simpl; [now destruct b | exact IH]. Qed.

(** The middle of three texts put together, cut out by its bounds. *)
Lemma substring_middle (x y z : string) :
  substring (x ++ y ++ z) (String.length x) (String.length x + String.length y)
  = y.
Proof.
  unfold substring. rewrite !length_app.
  rewrite (Nat.min_l (String.length x)) by lia.
  rewrite (Nat.min_l (String.length x + String.length y)) by lia.
  rewrite Nat.min_l by lia. rewrite Nat.max_r by lia.
  replace (String.length x + String.length y - String.length x)%nat
    with (String.length y) by lia.
  rewrite drop_app_exact. apply take_app_exact.
Qed.

Lemma substring_prefix (x z : string) :
  substring (x ++ z) 0 (String.length x) = x.
Proof. exact (substring_middle "" x z). Qed.

Lemma substringFrom_end (x y : string) :
  substringFrom (x ++ y) (String.length x) = y.
Proof.
  unfold substringFrom. rewrite length_app.
  rewrite Nat.min_l by lia. apply drop_app_exact.
Qed.

(** A text with a selection is the text before it, the selected text and
    the text after it. *)
Lemma selection_split (value : string) (selStart selEnd : nat) :
  (selStart <= selEnd)%nat ->
  (selEnd <= String.length value)%nat ->
  substring value 0 selStart = take selStart value
  /\ substring value selStart selEnd = take (selEnd - selStart) (drop selStart value)
  /\ substringFrom value selEnd = drop selEnd value
  /\ value = take selStart value
             ++ take (selEnd - selStart) (drop selStart value)
             ++ drop selEnd value
  /\ String.length (take selStart value) = selStart
  /\ String.length (take (selEnd - selStart) (drop selStart value))
     = (selEnd - selStart)%nat.
Proof.
  intros Hse Hlen.
  assert (Hdrop : String.length (drop selStart value)
                  = (String.length value - selStart)%nat).
  { pose proof (take_drop selStart value) as H.
    apply (f_equal String.length) in H.
    rewrite length_app, take_length in H. lia. }
  repeat split.
  - unfold substring. rewrite (Nat.min_l selStart) by lia.
    cbn [Nat.min Nat.max]. rewrite Nat.sub_0_r. now destruct value.
  - unfold substring. rewrite !Nat.min_l by lia. now rewrite Nat.max_r by lia.
  - unfold substringFrom. now rewrite Nat.min_l by lia.
  - rewrite <- (take_drop selStart value) at 1. f_equal.
    rewrite <- (take_drop (selEnd - selStart) (drop selStart value)) at 1.
    f_equal. rewrite drop_drop. f_equal. lia.
  - rewrite take_length. lia.
  - rewrite take_length, Hdrop. lia.
Qed.

(** X27.  A format button puts its two marks right around the selection:
    the text grows by the two marks, the selection set afterwards holds
    the text that was selected, and taking the marks out again gives the
    text as it was. *)
Theorem marks_wrap_the_selection (value before after : string)
  (selStart selEnd : nat) :
  (selStart <= selEnd)%nat ->
  (selEnd <= String.length value)%nat ->
  let newText := fst (insertMarkdown value selStart selEnd before after) in
  let newStart := fst (snd (insertMarkdown value selStart selEnd before after)) in
  let newEnd := snd (snd (insertMarkdown value selStart selEnd before after)) in
  String.length newText
  = (String.length value + String.length before + String.length after)%nat
  /\ substring newText newStart newEnd = substring value selStart selEnd
  /\ substring newText selStart newStart = before
  /\ substring newText newEnd (newEnd + String.length after) = after
  /\ substring newText 0 selStart
     ++ substring newText newStart newEnd
     ++ substringFrom newText (newEnd + String.length after)
     = value.
Proof.
  intros Hse Hlen.
  destruct (selection_split value selStart selEnd Hse Hlen)
    as [Hb [Hs [Ha [Hv [Hlb Hls]]]]].
  unfold insertMarkdown. cbn [fst snd]. rewrite Hb, Hs, Ha.
  set (A := take selStart value) in *.
  set (S := take (selEnd - selStart) (drop selStart value)) in *.
  set (B := drop selEnd value) in *.
  assert (HnewEnd : (selEnd + String.length before
                     = String.length (A ++ before) + String.length S)%nat)
    by (rewrite length_app; lia).
  assert (HnewStart : (selStart + String.length before
                       = String.length (A ++ before))%nat)
    by (rewrite length_app; lia).
  repeat split.
  - rewrite !length_app. apply (f_equal String.length) in Hv.
    rewrite !length_app in Hv. lia.
  - rewrite HnewEnd, HnewStart.
    rewrite <- (app_assoc A before (S ++ after ++ B)).
    apply (substring_middle (A ++ before) S (after ++ B)).
  - rewrite <- Hlb at 1.
    replace (selStart + String.length before)%nat
      with (String.length A + String.length before)%nat by lia.
    apply (substring_middle A before (S ++ after ++ B)).
  - replace (A ++ before ++ S ++ after ++ B)
      with ((A ++ before ++ S) ++ after ++ B)
      by (now rewrite !app_assoc).
    replace (selEnd + String.length before)%nat
      with (String.length (A ++ before ++ S))
      by (rewrite !length_app; lia).
    apply (substring_middle (A ++ before ++ S) after B).
  - assert (H0 : substring (A ++ before ++ S ++ after ++ B) 0 selStart = A).
    { rewrite <- Hlb. apply substring_prefix. }
    rewrite H0.
    rewrite HnewEnd, HnewStart.
    rewrite <- (app_assoc A before (S ++ after ++ B)) at 1.
    rewrite (substring_middle (A ++ before) S (after ++ B)).
    replace (A ++ before ++ S ++ after ++ B)
      with ((A ++ before ++ S ++ after) ++ B)
      by (now rewrite !app_assoc).
    replace (String.length (A ++ before) + String.length S
             + String.length after)%nat
      with (String.length (A ++ before ++ S ++ after))
      by (rewrite !length_app; lia).
    rewrite substringFrom_end. symmetry. exact Hv.
Qed.

Lemma marks_wrap_the_selection_witness :
  insertMarkdown "hello world" 6 11 "**" "**" = ("hello **world**", (8, 13)%nat)
  /\ substring "hello **world**" 8 13 = substring "hello world" 6 11.
Proof.
  split; [reflexivity|].
  exact (proj1 (proj2 (marks_wrap_the_selection "hello world" "**" "**" 6 11
                         ltac:(simpl; lia) ltac:(simpl; lia)))).
Defined.

End EditorFacts.

(** ** The tags of the home page *)

Module HomeFacts.
Import Components Notions.

Lemma compare_same (a b : string) :
  String.compare a b = OrdersEx.String_as_OT.compare a b.
Proof.
  reflexivity.
Qed.

Lemma compare_lt_trans (a b c : string) :
  String.compare a b = Lt -> String.compare b c = Lt -> String.compare a c = Lt.
Proof.
  rewrite !compare_same.
  apply (@RelationClasses.StrictOrder_Transitive _ _
           OrdersEx.String_as_OT.lt_strorder).
Qed.

Lemma leb_trans (a b c : string) :
  String.leb a b = true -> String.leb b c = true -> String.leb a c = true.
Proof.
  unfold String.leb. intros Hab Hbc.
  destruct (String.compare a c) eqn:Hac; try reflexivity.
  exfalso.
  assert (Hca : String.compare c a = Lt)
    by (rewrite String.compare_antisym, Hac; reflexivity).
  destruct (String.compare a b) eqn:E; [| |discriminate].
  - apply String.compare_eq_iff in E. subst b. now rewrite Hac in Hbc.
  - pose proof (compare_lt_trans c a b Hca E) as Hcb.
    rewrite String.compare_antisym, Hcb in Hbc. discriminate.
Qed.

Lemma insertString_perm (x : string) (l : list string) :
  Permutation (insertString x l) (x :: l).
Proof.
  induction l as [|y l IH]; simpl; [reflexivity|].
  destruct (String.leb x y); [reflexivity|].
  rewrite IH. apply perm_swap.
Qed.

Lemma sortStrings_perm (l : list string) : Permutation (sortStrings l) l.
Proof.
  unfold sortStrings. induction l as [|x l IH]; simpl; [reflexivity|].
  rewrite insertString_perm. now constructor.
Qed.

Lemma insertString_sorted (x : string) (l : list string) :
  StronglySorted (fun a b => String.leb a b = true) l ->
  StronglySorted (fun a b => String.leb a b = true) (insertString x l).
Proof.
  induction 1 as [|y l Hl IH Hy]; simpl; [repeat constructor|].
  destruct (String.leb x y) eqn:E.
  - constructor; [now constructor|]. constructor; [exact E|].
    rewrite Forall_forall in *. intros z Hz.
    apply (leb_trans x y z E). now apply Hy.
  - constructor; [exact IH|].
    rewrite Forall_forall in *. intros z Hz.
    apply (Permutation_in _ (insertString_perm x l)) in Hz.
    destruct Hz as [<- | Hz]; [|now apply Hy].
    destruct (String.leb_total x y) as [H | H]; congruence.
Qed.

Lemma sortStrings_sorted (l : list string) :
  StronglySorted (fun a b => String.leb a b = true) (sortStrings l).
Proof.
  unfold sortStrings. induction l as [|x l IH]; simpl; [constructor|].
  now apply insertString_sorted.
Qed.

Lemma strictly_sorted (l : list string) :
  StronglySorted (fun a b => String.leb a b = true) l -> NoDup l ->
  StronglySorted (fun a b => String.ltb a b = true) l.
Proof.
  induction 1 as [|x l Hl IH Hx]; intros Hnd; constructor.
  - apply IH. now inversion Hnd.
  - inversion Hnd as [|? ? Hnotin _]; subst.
    rewrite Forall_forall in *. intros y Hy. specialize (Hx y Hy).
    unfold String.leb in Hx. unfold String.ltb.
    destruct (String.compare x y) eqn:E; [|reflexivity|discriminate].
    apply String.compare_eq_iff in E. subst. contradiction.
Qed.

Lemma setAdd_fold (own acc : list string) :
  NoDup acc ->
  NoDup (fold_left setAdd own acc)
  /\ forall t, In t (fold_left setAdd own acc) <-> In t acc \/ In t own.
Proof.
  revert acc. induction own as [|x own IH]; intros acc Hnd; simpl.
  - split; [exact Hnd | tauto].
  - assert (Hnd' : NoDup (setAdd acc x)).
    { unfold setAdd. destruct (arrayIncludes acc x) eqn:E; [exact Hnd|].
      apply TagFacts.NoDup_append; [exact Hnd|].
      now apply TagFacts.arrayIncludes_false. }
    destruct (IH _ Hnd') as [H1 H2]. split; [exact H1|].
    intros t. rewrite H2. unfold setAdd.
    destruct (arrayIncludes acc x) eqn:E.
    + apply TagFacts.arrayIncludes_iff in E. split; [tauto|].
      intros [H | [<- | H]]; tauto.
    + rewrite in_app_iff. simpl. tauto.
Qed.

Lemma collect_from (posts : list BlogAPI.BlogPost) (acc : list string) :
  NoDup acc ->
  NoDup (fold_left
           (fun tags post =>
              match BlogAPI.published post, BlogAPI.tags post with
              | Some true, Some own => fold_left setAdd own tags
              | _, _ => tags
              end) posts acc)
  /\ forall t,
       In t (fold_left
               (fun tags post =>
                  match BlogAPI.published post, BlogAPI.tags post with
                  | Some true, Some own => fold_left setAdd own tags
                  | _, _ => tags
                  end) posts acc)
       <-> In t acc \/ taggedBy posts t.
Proof.
  revert acc. induction posts as [|post posts IH]; intros acc Hnd; simpl.
  - split; [exact Hnd|]. intros t. split; [tauto|].
    intros [H | [p [own [[] _]]]]. exact H.
  - destruct (BlogAPI.published post) as [[|]|] eqn:Hp;
      [destruct (BlogAPI.tags post) as [own|] eqn:Ht|..].
    + destruct (setAdd_fold own acc Hnd) as [Hnd' Hin].
      destruct (IH _ Hnd') as [H1 H2]. split; [exact H1|].
      intros t. rewrite H2, Hin. split.
      * intros [[H | H] | [p [o [Hpin Hrest]]]]; [tauto | |].
        -- right. exists post, own. simpl. tauto.
        -- right. exists p, o. simpl. tauto.
      * intros [H | [p [o [[<- | Hpin] [Hpub [Htags Hto]]]]]]; [tauto | |].
        -- rewrite Ht in Htags. inversion Htags; subst. tauto.
        -- right. exists p, o. tauto.
    + destruct (IH _ Hnd) as [H1 H2]. split; [exact H1|].
      intros t. rewrite H2. split.
      * intros [H | [p [o [Hpin Hrest]]]]; [tauto|].
        right. exists p, o. simpl. tauto.
      * intros [H | [p [o [[<- | Hpin] [Hpub [Htags Hto]]]]]]; [tauto | |].
        -- congruence.
        -- right. exists p, o. tauto.
    + destruct (IH _ Hnd) as [H1 H2]. split; [exact H1|].
      intros t. rewrite H2. split.
      * intros [H | [p [o [Hpin Hrest]]]]; [tauto|].
        right. exists p, o. simpl. tauto.
      * intros [H | [p [o [[<- | Hpin] [Hpub [Htags Hto]]]]]]; [tauto | |].
        -- congruence.
        -- right. exists p, o. tauto.
    + destruct (IH _ Hnd) as [H1 H2]. split; [exact H1|].
      intros t. rewrite H2. split.
      * intros [H | [p [o [Hpin Hrest]]]]; [tauto|].
        right. exists p, o. simpl. tauto.
      * intros [H | [p [o [[<- | Hpin] [Hpub [Htags Hto]]]]]]; [tauto | |].
        -- congruence.
        -- right. exists p, o. tauto.
Qed.

(** X28.  The tags offered as filters on the home page are exactly the
    tags of the published posts, each once, in ascending order. *)
Theorem filter_tags_are_sorted_and_exact (posts : list BlogAPI.BlogPost) :
  StronglySorted (fun a b => String.ltb a b = true) (allTags posts)
  /\ forall t, In t (allTags posts) <-> taggedBy posts t.
Proof.
  unfold allTags, collectTags.
  destruct (collect_from posts [] (NoDup_nil _)) as [Hnd Hin]. split.
  - apply strictly_sorted; [apply sortStrings_sorted|].
    apply (Permutation_NoDup (Permutation_sym (sortStrings_perm _)) Hnd).
  - intros t. split.
    + intros H. apply (Permutation_in _ (sortStrings_perm _)) in H.
      apply Hin in H as [[] | H]. exact H.
    + intros H.
      apply (Permutation_in _ (Permutation_sym (sortStrings_perm _))).
      apply Hin. now right.
Qed.

End HomeFacts.
